(** * monorm: schema derivation and record instances (monorm/model.py)

    A shallow embedding of [monorm/model.py]: the type-hint to field
    correspondence ([hint_field_map], [_hint_to_field]), the metaclass
    [ModelType] ([__new__], [_parse_type_hints], [_process_meta],
    [__init__]) and the record class [BaseModel] ([clean],
    [from_data_unchanged], [to_dict], [_iter_model]).  What lives in
    [monorm/fields.py] and [monorm/mongo.py] is either a parameter
    (the root field's [convert] and [validate], [Field.__get__]) or
    modelled from the specification and marked so (attribute access of
    fields, persistence, index reconciliation).

    Python dictionaries keep insertion order, and several properties
    below are about that order, so a dictionary is an association list
    with unique keys: [dict_set] overwrites in place or appends.
    Exceptions are values of [exn]; a computation that may raise returns
    [result]. *)

From Stdlib Require Import List String Bool ZArith.
Import ListNotations.
Open Scope string_scope.
Open Scope list_scope.

Set Implicit Arguments.
Set Warnings "-register-all".

(** ** Python dictionaries with string keys *)

Section Dict.
Variable V : Type.

Definition dict := list (string * V).

Fixpoint dict_get (d : dict) (k : string) : option V :=
  match d with
  | [] => None
  | (k', v) :: d' => if String.eqb k' k then Some v else dict_get d' k
  end.

Definition dict_mem (d : dict) (k : string) : bool :=
  match dict_get d k with Some _ => true | None => false end.

(** [d[k] = v]: an existing key keeps its position. *)
Fixpoint dict_set (d : dict) (k : string) (v : V) : dict :=
  match d with
  | [] => [(k, v)]
  | (k', v') :: d' =>
      if String.eqb k' k then (k', v) :: d' else (k', v') :: dict_set d' k v
  end.

Definition dict_keys (d : dict) : list string := map fst d.

(** [d.update(e)] *)
Definition dict_update (d e : dict) : dict :=
  fold_left (fun acc kv => dict_set acc (fst kv) (snd kv)) e d.
End Dict.

(** [name in names] for a list of strings. *)
Definition str_in (k : string) (l : list string) : bool :=
  existsb (String.eqb k) l.

(** ** Exceptions and results *)

Inductive exn : Type :=
| TypeError (msg : string)
| ValueError (field_name : string)
| AttributeError (attr : string)
| ConversionError (msg : string)
| ValidationError (msg : string)
| RuntimeError (msg : string)
| NameError (name : string).

Inductive result (A : Type) : Type :=
| Ok (a : A)
| Raise (e : exn).
Arguments Raise {A} e.

Definition rbind {A B} (r : result A) (k : A -> result B) : result B :=
  match r with
  | Ok a => k a
  | Raise e => Raise e
  end.

Notation "'let?' x ':=' r 'in' k" := (rbind r (fun x => k))
  (at level 10, x pattern, r at level 100, k at level 200).

(** ** Type hints *)

(** The ten keys of [hint_field_map]. *)
Inductive prim : Type :=
| Pstr | Pint | Pfloat | Pbool | Pbytes | Pdict | Plist
| Pdatetime | PObjectId | PAny.

Inductive variance : Type := Invariant | Covariant | Contravariant.

(** What a generic alias carries in [__origin__]: [list] or
    [typing.List] on one side, any other origin ([dict], [Union], ...)
    on the other. *)
Inductive origin : Type :=
| OriginList
| OriginOther (repr : string).

(** The objects an annotation can evaluate to.
    - [HPrim]: one of the ten keys of [hint_field_map];
    - [HClass name embedded]: a class that is not such a key;
      [embedded] is [issubclass(hint, EmbeddedModel)];
    - [HGeneric o arg args]: an object whose [__dict__] has
      [__origin__] = [o] and whose [__args__] is [arg :: args];
      the bare [typing.List] is [HGeneric OriginList (HTypeVar Invariant "T") []];
    - [HTypeVar v name]: a type variable;
    - [HOther repr]: any other object (its [__dict__] has no [__origin__]). *)
Inductive hint : Type :=
| HPrim (p : prim)
| HClass (name : string) (embedded : bool)
| HGeneric (o : origin) (arg : hint) (args : list hint)
| HTypeVar (v : variance) (name : string)
| HOther (repr : string).

(** [str(tv)] for a type variable: the variance sign, then the name. *)
Definition typevar_str (v : variance) (name : string) : string :=
  String.append
    (match v with
     | Invariant => "~"
     | Covariant => "+"
     | Contravariant => "-"
     end) name.

(** [str(arg) == '~T'].  Only a type variable prints with a leading
    sign; a class prints as [<class '...'>] and a generic alias as
    [typing.List[...]]. *)
Definition str_is_tilde_T (h : hint) : bool :=
  match h with
  | HTypeVar v name => String.eqb (typevar_str v name) "~T"
  | _ => false
  end.

(** ** Fields *)

(** Values found in class bodies and in documents. *)
Inductive pyval : Type :=
| VNone
| VBool (b : bool)
| VInt (z : Z)
| VStr (s : string)
| VList (l : list pyval)
| VDict (d : list (string * pyval))
| VCallable (id : string)
| VInstance (cls_name : string) (data : list (string * pyval))
| VObject (repr : string).

(** A [Field] object.  [name] is [None] until it is set; [default] is
    [None] as long as no default was recorded.  The classes are those
    of [monorm.fields]; [ArrayField] holds its element field,
    [EmbeddedField] the name of the embedded model class. *)
Inductive Field : Type :=
| mkField (kind : field_kind) (name : option string) (required : bool)
          (default : option pyval) (converter validator : option string)
with field_kind : Type :=
| StringField | IntField | FloatField | BooleanField | BytesField
| DictField | ListField | DateTimeField | ObjectIdField | AnyField
| EmbeddedField (model : string)
| ArrayField (elem : Field).

Definition kind (f : Field) : field_kind :=
  let '(mkField k _ _ _ _ _) := f in k.
Definition name (f : Field) : option string :=
  let '(mkField _ n _ _ _ _) := f in n.
Definition required (f : Field) : bool :=
  let '(mkField _ _ r _ _ _) := f in r.
Definition default (f : Field) : option pyval :=
  let '(mkField _ _ _ d _ _) := f in d.
Definition converter (f : Field) : option string :=
  let '(mkField _ _ _ _ c _) := f in c.
Definition validator (f : Field) : option string :=
  let '(mkField _ _ _ _ _ v) := f in v.

Definition set_name (f : Field) (n : string) : Field :=
  let '(mkField k _ r d c v) := f in mkField k (Some n) r d c v.
Definition set_required (f : Field) (b : bool) : Field :=
  let '(mkField k n _ d c v) := f in mkField k n b d c v.
Definition set_default (f : Field) (x : pyval) : Field :=
  let '(mkField k n r _ c v) := f in mkField k n r (Some x) c v.
Definition set_converter (f : Field) (x : string) : Field :=
  let '(mkField k n r d _ v) := f in mkField k n r d (Some x) v.
Definition set_validator (f : Field) (x : string) : Field :=
  let '(mkField k n r d c _) := f in mkField k n r d c (Some x).

(** A field class called with no argument: nothing is set. *)
Definition new_field (k : field_kind) : Field :=
  mkField k None false None None None.

(** ** [hint_field_map] and [_hint_to_field] *)

Definition hint_field_map (p : prim) : field_kind :=
  match p with
  | Pstr => StringField
  | Pint => IntField
  | Pfloat => FloatField
  | Pbool => BooleanField
  | Pbytes => BytesField
  | Pdict => DictField
  | Plist => ListField
  | Pdatetime => DateTimeField
  | PObjectId => ObjectIdField
  | PAny => AnyField
  end.

Definition cannot_convert : string := "cannot convert hint to a field".

Fixpoint _hint_to_field (hint_type : hint) : result Field :=
  match hint_type with
  | HPrim p => Ok (new_field (hint_field_map p))
  | HClass cname true => Ok (new_field (EmbeddedField cname))
  | HGeneric OriginList arg _ =>
      if str_is_tilde_T arg then Ok (new_field ListField)
      else let? elem := _hint_to_field arg in
           Ok (new_field (ArrayField elem))
  | _ => Raise (TypeError cannot_convert)
  end.

(** ** Effects: warnings and calls into [monorm.fields]

    [warn] and the calls of the root field's [convert] and [validate]
    are recorded in a trace, in the order they happen; a raised
    exception ends the computation and keeps the trace so far. *)

Inductive event : Type :=
| Warned (msg : string)
| Converted (cls_name : string) (data : dict pyval)
| Validated (cls_name : string) (data : dict pyval).

Definition M (A : Type) : Type := list event -> result A * list event.

Definition ret {A} (a : A) : M A := fun t => (Ok a, t).
Definition raise {A} (e : exn) : M A := fun t => (Raise e, t).
Definition emit (ev : event) : M unit := fun t => (Ok tt, t ++ [ev]).
Definition lift {A} (r : result A) : M A := fun t => (r, t).

Definition bind {A B} (m : M A) (k : A -> M B) : M B :=
  fun t =>
    match m t with
    | (Ok a, t') => k a t'
    | (Raise e, t') => (Raise e, t')
    end.

Notation "x <- m ;; k" := (bind m (fun x => k))
  (at level 61, m at next level, right associativity).
Notation "m ;;; k" := (bind m (fun _ => k))
  (at level 61, right associativity).

(** Run from the empty trace. *)
Definition run {A} (m : M A) : result A * list event := m [].

(** A [for] loop whose body may raise: the state [s] is threaded through. *)
Fixpoint for_each {A S} (body : S -> A -> M S) (l : list A) (s : S) : M S :=
  match l with
  | [] => ret s
  | x :: l' => s' <- body s x ;; for_each body l' s'
  end.

(** ** Class bodies and classes *)

(** [Meta.aliases] is a dict or a list of pairs. *)
Inductive alias_spec : Type :=
| AliasDict (d : dict string)
| AliasPairs (l : list (string * string)).

(** The inner class [Meta]; an attribute that is not declared is [None]
    here and read with its [getattr] default. *)
Record Meta : Type := mkMeta {
  aliases : option alias_spec;
  meta_required : option (list string);
  converters : option (dict string);
  validators : option (dict string)
}.

(** What a class namespace holds under a name.  [__annotations__] is
    [AAnnotations a] when every annotation of the body evaluates, [a]
    giving the objects they evaluate to, and [AUnresolvedAnnotations ref]
    when the string annotation [ref] names nothing that can be found. *)
Inductive attr_value : Type :=
| AField (f : Field)
| AValue (v : pyval)
| AMeta (m : Meta)
| AAnnotations (a : dict hint)
| AFieldOrder (l : list string)
| AUnresolvedAnnotations (ref : string).

Definition namespace := dict attr_value.

(** A class object: its own [__dict__], the type hints its bases
    contribute to [get_type_hints] (collected along the reversed MRO
    before the class itself; the annotations of the bases are taken to
    evaluate) and the attributes reachable through its bases. *)
Record class : Type := mkClass {
  cls_name : string;
  cls_dict : namespace;
  base_hints : dict hint;
  base_attrs : namespace
}.

Definition with_dict (cls : class) (d : namespace) : class :=
  mkClass (cls_name cls) d (base_hints cls) (base_attrs cls).

(** The truth value of a Python value, and of what a class holds under
    a name: an object of a class without [__bool__] and [__len__] is
    true, and so are a [Field] and a [Meta] taken to be. *)
Definition truthy (v : pyval) : bool :=
  match v with
  | VNone => false
  | VBool b => b
  | VInt z => negb (Z.eqb z 0)
  | VStr s => negb (String.eqb s "")
  | VList l => match l with [] => false | _ => true end
  | VDict d => match d with [] => false | _ => true end
  | _ => true
  end.

Definition attr_truthy (a : attr_value) : bool :=
  match a with
  | AValue v => truthy v
  | AAnnotations a => match a with [] => false | _ => true end
  | AFieldOrder l => match l with [] => false | _ => true end
  | _ => true
  end.

(** Attribute lookup on a class: its own [__dict__], then its bases. *)
Definition class_lookup (cls : class) (key : string) : option attr_value :=
  match dict_get (cls_dict cls) key with
  | Some a => Some a
  | None => dict_get (base_attrs cls) key
  end.

(** [getattr(cls, '__no_type_check__', None)] is true. *)
Definition no_type_check (cls : class) : bool :=
  match class_lookup cls "__no_type_check__" with
  | Some a => attr_truthy a
  | None => false
  end.

(** [typing.get_type_hints(cls)]: nothing when the class or a base holds
    a true [__no_type_check__]; else the bases' hints, updated with the
    annotations of the class's own body, or [NameError] when one of
    these does not evaluate. *)
Definition get_type_hints (cls : class) : result (dict hint) :=
  if no_type_check cls then Ok []
  else
    match dict_get (cls_dict cls) "__annotations__" with
    | Some (AAnnotations a) => Ok (dict_update (base_hints cls) a)
    | Some (AUnresolvedAnnotations ref) => Raise (NameError ref)
    | _ => Ok (base_hints cls)
    end.

(** ** [ModelType.__new__] *)

Definition mixing_warning : string :=
  "You are mixing type-hint-style with django-orm-style; the field definition order may not be reserved.".

(** The loop over [attrs.items()]: a [Field] whose name is [None] gets
    its key as name, and every [Field] key is appended to [field_order]. *)
Fixpoint collect_fields (items : namespace) : namespace * list string :=
  match items with
  | [] => ([], [])
  | (key, AField value) :: rest =>
      let value' := match name value with
                    | None => set_name value key
                    | Some _ => value
                    end in
      let '(rest', order) := collect_fields rest in
      ((key, AField value') :: rest', key :: order)
  | kv :: rest =>
      let '(rest', order) := collect_fields rest in
      (kv :: rest', order)
  end.

Definition ModelType___new__ (cname : string) (bhints : dict hint)
    (battrs : namespace) (attrs : namespace) : class :=
  if dict_mem attrs "_no_parse_hints" then mkClass cname attrs bhints battrs
  else
    let '(attrs', field_order) := collect_fields attrs in
    mkClass cname (dict_set attrs' "_field_order" (AFieldOrder field_order))
            bhints battrs.

(** ** [ModelType._parse_type_hints] *)

(** [getattr(cls, name)] for a name of the class's own [__dict__], as a
    value that can be stored as a default. *)
Definition attr_as_value (a : attr_value) : pyval :=
  match a with
  | AValue v => v
  | AField _ => VObject "Field"
  | AMeta _ => VObject "Meta"
  | AAnnotations _ => VObject "__annotations__"
  | AFieldOrder l => VList (map VStr l)
  | AUnresolvedAnnotations _ => VObject "__annotations__"
  end.

Definition class_getattr (d : namespace) (nm : string) : pyval :=
  match dict_get d nm with
  | Some a => attr_as_value a
  | None => VNone
  end.

(** [x is not None] for [x = cls.__dict__.get(name)]. *)
Definition is_not_None (x : option attr_value) : bool :=
  match x with
  | None => false
  | Some (AValue VNone) => false
  | Some _ => true
  end.

Definition field_order_of (d : namespace) : list string :=
  match dict_get d "_field_order" with
  | Some (AFieldOrder l) => l
  | _ => []
  end.

(** [field_order] is the list object held by [cls.__dict__['_field_order']]:
    an [append] shows through the class as long as the entry has not
    been replaced. *)
Definition sync_field_order (d : namespace) (field_order : list string)
    : namespace :=
  match dict_get d "_field_order" with
  | Some (AFieldOrder _) => dict_set d "_field_order" (AFieldOrder field_order)
  | _ => d
  end.

(** One turn of the loop over [types.items()]; the state is the class
    namespace and the list [field_order]. *)
Definition parse_hint_step (annotations : dict hint)
    (st : namespace * list string) (item : string * hint)
    : M (namespace * list string) :=
  let '(d, field_order) := st in
  let '(nm, h) := item in
  if negb (dict_mem annotations nm) then ret st
  else
    field <- lift (_hint_to_field h) ;;
    let field := set_name field nm in
    let field_order := field_order ++ [nm] in
    let d := sync_field_order d field_order in
    let field := if is_not_None (dict_get d nm)
                 then set_default field (class_getattr d nm)
                 else field in
    ret (dict_set d nm (AField field), field_order).

(** The body of [_parse_type_hints] once [annotations] is not [None]. *)
Definition parse_annotated (annotations : dict hint) (cls : class) : M class :=
  types <- lift (get_type_hints cls) ;;
  let field_order := field_order_of (cls_dict cls) in
  (if negb (Nat.eqb (List.length field_order) 0)
   then emit (Warned mixing_warning) else ret tt) ;;;
  st <- for_each (parse_hint_step annotations) types
                 (cls_dict cls, field_order) ;;
  ret (with_dict cls (fst st)).

(** With annotations that do not evaluate, [get_type_hints] raises or,
    under [__no_type_check__], returns no hint: the names annotated are
    never read. *)
Definition _parse_type_hints (cls : class) : M class :=
  match dict_get (cls_dict cls) "__annotations__" with
  | Some (AAnnotations annotations) => parse_annotated annotations cls
  | Some (AUnresolvedAnnotations _) => parse_annotated [] cls
  | _ => ret cls
  end.

(** ** [ModelType._process_meta] *)

(** [fields = {key: value for ... if isinstance(value, Field)}], read
    through the class namespace: the [Field] objects are shared with it,
    so an assignment to [fields[name].attr] is an update of the entry. *)
Definition field_of (d : namespace) (nm : string) : option Field :=
  match dict_get d nm with
  | Some (AField f) => Some f
  | _ => None
  end.

Definition ensure_field_exist (d : namespace) (nm : string) : M unit :=
  match field_of d nm with
  | Some _ => ret tt
  | None => raise (ValueError nm)
  end.

Definition update_field (d : namespace) (nm : string) (g : Field -> Field)
    : namespace :=
  match field_of d nm with
  | Some f => dict_set d nm (AField (g f))
  | None => d
  end.

Definition alias_pairs (a : alias_spec) : list (string * string) :=
  match a with
  | AliasDict d => d
  | AliasPairs l => l
  end.

Definition meta_of (d : namespace) : Meta :=
  match dict_get d "Meta" with
  | Some (AMeta m) => m
  | _ => mkMeta None None None None
  end.

Definition meta_aliases (m : Meta) : list (string * string) :=
  match aliases m with Some a => alias_pairs a | None => [] end.
Definition meta_required_names (m : Meta) : list string :=
  match meta_required m with Some l => l | None => [] end.
Definition meta_converters (m : Meta) : dict string :=
  match converters m with Some l => l | None => [] end.
Definition meta_validators (m : Meta) : dict string :=
  match validators m with Some l => l | None => [] end.

Definition alias_step (d : namespace) (item : string * string) : M namespace :=
  ensure_field_exist d (fst item) ;;;
  ret (update_field d (fst item) (fun f => set_name f (snd item))).

Definition required_step (d : namespace) (nm : string) : M namespace :=
  ensure_field_exist d nm ;;;
  ret (update_field d nm (fun f => set_required f true)).

Definition converter_step (d : namespace) (item : string * string)
    : M namespace :=
  ensure_field_exist d (fst item) ;;;
  ret (update_field d (fst item) (fun f => set_converter f (snd item))).

Definition validator_step (d : namespace) (item : string * string)
    : M namespace :=
  ensure_field_exist d (fst item) ;;;
  ret (update_field d (fst item) (fun f => set_validator f (snd item))).

Definition process_meta_dict (d : namespace) : M namespace :=
  let meta := meta_of d in
  d1 <- for_each alias_step (meta_aliases meta) d ;;
  d2 <- for_each required_step (meta_required_names meta) d1 ;;
  d3 <- for_each converter_step (meta_converters meta) d2 ;;
  for_each validator_step (meta_validators meta) d3.

Definition _process_meta (cls : class) : M class :=
  d <- process_meta_dict (cls_dict cls) ;;
  ret (with_dict cls d).

(** ** [ModelType.__init__] and the definition of a class *)

Definition ModelType___init__ (cls : class) : M class :=
  if negb (dict_mem (cls_dict cls) "_no_parse_hints")
  then cls1 <- _parse_type_hints cls ;; _process_meta cls1
  else ret cls.

(** The [class] statement: [__new__], then [__init__]. *)
Definition define_class (cname : string) (bhints : dict hint)
    (battrs : namespace) (attrs : namespace) : M class :=
  ModelType___init__ (ModelType___new__ cname bhints battrs attrs).

(** The fields of a class: the [Field] entries of its [__dict__]. *)
Fixpoint schema_fields (d : namespace) : list (string * Field) :=
  match d with
  | [] => []
  | (k, AField f) :: d' => (k, f) :: schema_fields d'
  | _ :: d' => schema_fields d'
  end.

(** ** [BaseModel] *)

Record instance : Type := mkInstance {
  inst_class : class;
  _data : dict pyval
}.

Section BaseModel.
(** [EmbeddedField().init_root(cls)] of [monorm.fields]: its [convert]
    returns the converted mapping or raises, its [validate] returns or
    raises. *)
Variable root_convert : class -> dict pyval -> result (dict pyval).
Variable root_validate : class -> dict pyval -> result unit.
(** [Field.__get__(self, obj, type)] of [monorm.fields]. *)
Variable Field___get__ : Field -> instance -> result pyval.

Definition clean (cls : class) (data : dict pyval)
    (bypass_conversion bypass_validation : bool) : M (dict pyval) :=
  data <- (if negb bypass_conversion
           then emit (Converted (cls_name cls) data) ;;;
                lift (root_convert cls data)
           else ret data) ;;
  (if negb bypass_validation
   then emit (Validated (cls_name cls) data) ;;;
        lift (root_validate cls data)
   else ret tt) ;;;
  ret data.

Definition BaseModel___init__ (cls : class)
    (bypass_conversion bypass_validation : bool) (kw : dict pyval)
    : M instance :=
  data <- clean cls kw bypass_conversion bypass_validation ;;
  ret (mkInstance cls data).

Definition to_dict (self : instance) : dict pyval := _data self.

Definition from_data_unchanged (cls : class) (data : dict pyval)
    : M instance :=
  obj <- BaseModel___init__ cls true true [] ;;
  ret (mkInstance (inst_class obj) data).

(** [getattr(self, key)]: a [Field] found on the class is a descriptor
    and answers through [__get__]; then the instance's own [_data];
    then any other class attribute; else [AttributeError]. *)
Definition getattr (self : instance) (key : string) : result pyval :=
  match class_lookup (inst_class self) key with
  | Some (AField f) => Field___get__ f self
  | other =>
      if String.eqb key "_data" then Ok (VDict (_data self))
      else match other with
           | Some a => Ok (attr_as_value a)
           | None => Raise (AttributeError key)
           end
  end.

(** A generator, run to its end: the values it yields and, when the
    body raises, the exception that ends it. *)
Fixpoint yield_each (self : instance) (ks : list string)
    : list pyval * option exn :=
  match ks with
  | [] => ([], None)
  | key :: ks' =>
      match getattr self key with
      | Ok v => let '(vs, e) := yield_each self ks' in (v :: vs, e)
      | Raise e => ([], Some e)
      end
  end.

Definition _iter_model (self : instance) : list pyval * option exn :=
  yield_each self (dict_keys (_data self)).
End BaseModel.

(** ** Attribute access on fields *)

(** Modelled from the spec: [Field.__get__] of [monorm/fields.py], which
    is not part of the sources at hand.  Attribute lookup surfaces the
    value stored in [_data] under the field's name (its alias once
    aliased); an embedded field surfaces a sub-mapping as a typed
    sub-instance of its model.  A key that is absent reads as [None]. *)
Definition Field_get_spec (f : Field) (self : instance) : result pyval :=
  match name f with
  | None => Ok VNone
  | Some wire =>
      match dict_get (_data self) wire with
      | None => Ok VNone
      | Some v =>
          match kind f, v with
          | EmbeddedField model, VDict sub => Ok (VInstance model sub)
          | _, _ => Ok v
          end
      end
  end.

(** ** Persistence of record instances *)

Module Persistence.

(** Modelled from the spec: the provenance flag and the persistence hook
    ([save]) of the model class in [monorm/mongo.py], which is not part
    of the sources at hand.  A record is either constructed or
    materialized from a query; the flag is the only state outside
    [_data]; the materializing factory goes through
    [BaseModel.from_data_unchanged] and marks the record; persisting a
    materialized record raises [RuntimeError]. *)
Inductive provenance : Type := Constructed | MaterializedFromQuery.

Record record : Type := mkRecord {
  rec_instance : instance;
  rec_provenance : provenance
}.

Section Hooks.
Variable root_convert : class -> dict pyval -> result (dict pyval).
Variable root_validate : class -> dict pyval -> result unit.

Definition construct (cls : class) (kw : dict pyval) : M record :=
  obj <- BaseModel___init__ root_convert root_validate cls false false kw ;;
  ret (mkRecord obj Constructed).

Definition materialize (cls : class) (data : dict pyval) : M record :=
  obj <- from_data_unchanged root_convert root_validate cls data ;;
  ret (mkRecord obj MaterializedFromQuery).
End Hooks.

(** [obj.attr = value]: the value goes to [_data]. *)
Definition set_attribute (r : record) (kv : string * pyval) : record :=
  mkRecord
    (mkInstance (inst_class (rec_instance r))
                (dict_set (_data (rec_instance r)) (fst kv) (snd kv)))
    (rec_provenance r).

Definition mutate (r : record) (writes : list (string * pyval)) : record :=
  fold_left set_attribute writes r.

Definition read_only_message : string := "cannot save a query result".

(** [save]: the document handed to the database, or the refusal. *)
Definition save (r : record) : result (dict pyval) :=
  match rec_provenance r with
  | MaterializedFromQuery => Raise (RuntimeError read_only_message)
  | Constructed => Ok (_data (rec_instance r))
  end.

End Persistence.

(** ** Index reconciliation *)

Module IndexReconciler.

(** Modelled from the spec: the index reconciler of [monorm/mongo.py],
    which is not part of the sources at hand (only its tests are).  A
    declared index is a canonical triple of name, ordered key list and
    options; the existing metadata maps a name to key list and options
    and leaves the implicit primary-key index out. *)
Inductive direction : Type := Ascending | Descending.

Definition key_list := list (string * direction).

Record options : Type := mkOptions {
  opt_sparse : bool;
  opt_unique : bool;
  expire_after_seconds : option Z
}.

Record index : Type := mkIndex {
  idx_name : string;
  idx_key : key_list;
  idx_options : options
}.

Definition direction_str (d : direction) : string :=
  match d with Ascending => "1" | Descending => "-1" end.

(** The canonical name: [field_direction] of every key component,
    joined by underscores. *)
Definition canonical_name (k : key_list) : string :=
  String.concat "_"
    (map (fun c => String.append (fst c) (String.append "_" (direction_str (snd c)))) k).

(** A declared specification with its optional custom name. *)
Definition normalize (custom : option string) (k : key_list) (o : options)
    : index :=
  mkIndex (match custom with Some n => n | None => canonical_name k end) k o.

Inductive op : Type :=
| DropIndex (nm : string)
| CreateIndex (i : index).

Definition metadata := dict index.

Definition ttl_eqb (a b : option Z) : bool :=
  match a, b with
  | None, None => true
  | Some x, Some y => Z.eqb x y
  | _, _ => false
  end.

Definition declared_names (declared : list index) : list string :=
  map idx_name declared.

(** Step 3: drop every existing index whose name is not declared. *)
Definition stale_drops (declared : list index) (existing : metadata)
    : list op :=
  map DropIndex
      (filter (fun nm => negb (str_in nm (declared_names declared)))
              (dict_keys existing)).

(** Step 4, for one declared index. *)
Definition converge_one (existing : metadata) (i : index) : list op :=
  match dict_get existing (idx_name i) with
  | None => [CreateIndex i]
  | Some old =>
      if ttl_eqb (expire_after_seconds (idx_options old))
                 (expire_after_seconds (idx_options i))
      then []
      else [DropIndex (idx_name i); CreateIndex i]
  end.

Definition reconcile (declared : list index) (existing : metadata)
    : list op :=
  stale_drops declared existing ++ flat_map (converge_one existing) declared.

(** The external collaborator: what an operation does to the metadata. *)
Fixpoint dict_remove (m : metadata) (nm : string) : metadata :=
  match m with
  | [] => []
  | (k, v) :: m' =>
      if String.eqb k nm then dict_remove m' nm else (k, v) :: dict_remove m' nm
  end.

Definition apply_op (m : metadata) (o : op) : metadata :=
  match o with
  | DropIndex nm => dict_remove m nm
  | CreateIndex i => dict_set m (idx_name i) i
  end.

Definition apply_ops (m : metadata) (ops : list op) : metadata :=
  fold_left apply_op ops m.

End IndexReconciler.

(** * Properties *)

(** ** The two switches of [clean] *)

Section CleanProperties.
Variable root_convert : class -> dict pyval -> result (dict pyval).
Variable root_validate : class -> dict pyval -> result unit.





Lemma clean_trace (cls : class) (data : dict pyval) (bc bv : bool) :
  snd (run (clean root_convert root_validate cls data bc bv)) =
    (if bc then [] else [Converted (cls_name cls) data]) ++
    match (if bc then Ok data else root_convert cls data) with
    | Ok d => if bv then [] else [Validated (cls_name cls) d]
    | Raise _ => []
    end.
Proof.
  unfold run, clean, bind, emit, lift, ret.
  destruct bc, bv; simpl; try reflexivity.
  - destruct (root_validate cls data); reflexivity.
  - destruct (root_convert cls data); reflexivity.
  - destruct (root_convert cls data) as [d|e]; simpl; [|reflexivity].
    destruct (root_validate cls d); reflexivity.
Qed.


(** ** The unchanged-materialization factory *)

(** C7.  [from_data_unchanged] returns an instance of the class, calls
    neither [convert] nor [validate], and the instance's [to_dict] is
    the mapping it was given. *)
Theorem from_data_unchanged_stores_data (cls : class) (data : dict pyval) :
  exists obj,
    run (from_data_unchanged root_convert root_validate cls data) = (Ok obj, []) /\
    inst_class obj = cls /\
    to_dict obj = data.
Proof.
  exists (mkInstance cls data). repeat split.
Qed.
End CleanProperties.


(** ** The correspondence table of [_hint_to_field] *)

(** The cases in which [_hint_to_field] builds a field: a key of
    [hint_field_map]; an embedded-model class; a list whose element
    prints as [~T] (the bare [List]); a list of an element that itself
    has a field. *)
Inductive table : hint -> Field -> Prop :=
| table_prim (p : prim) :
    table (HPrim p) (new_field (hint_field_map p))
| table_embedded (cname : string) :
    table (HClass cname true) (new_field (EmbeddedField cname))
| table_untyped_list (arg : hint) (args : list hint) :
    str_is_tilde_T arg = true ->
    table (HGeneric OriginList arg args) (new_field ListField)
| table_array (arg : hint) (args : list hint) (elem : Field) :
    str_is_tilde_T arg = false ->
    table arg elem ->
    table (HGeneric OriginList arg args) (new_field (ArrayField elem)).

(** The same cases with the third one read as widely as it is worded:
    the element is any unbound type variable. *)
Definition is_typevar (h : hint) : bool :=
  match h with HTypeVar _ _ => true | _ => false end.

Inductive table_any_typevar : hint -> Field -> Prop :=
| wide_prim (p : prim) :
    table_any_typevar (HPrim p) (new_field (hint_field_map p))
| wide_embedded (cname : string) :
    table_any_typevar (HClass cname true) (new_field (EmbeddedField cname))
| wide_untyped_list (arg : hint) (args : list hint) :
    is_typevar arg = true ->
    table_any_typevar (HGeneric OriginList arg args) (new_field ListField)
| wide_array (arg : hint) (args : list hint) (elem : Field) :
    is_typevar arg = false ->
    table_any_typevar arg elem ->
    table_any_typevar (HGeneric OriginList arg args)
                      (new_field (ArrayField elem)).

Lemma hint_to_field_total (h : hint) :
  (exists f, _hint_to_field h = Ok f) \/
  _hint_to_field h = Raise (TypeError cannot_convert).
Proof.
  induction h as [p|cname emb|o arg IH args|v nm|repr]; simpl.
  - left; eauto.
  - destruct emb; [left; eauto | right; reflexivity].
  - destruct o; [|right; reflexivity].
    destruct (str_is_tilde_T arg); [left; eauto|].
    destruct IH as [[f ->]| ->]; simpl; [left; eauto | right; reflexivity].
  - right; reflexivity.
  - right; reflexivity.
Qed.

Lemma table_sound (h : hint) (f : Field) :
  table h f -> _hint_to_field h = Ok f.
Proof.
  induction 1 as [p|cname|arg args Ht|arg args elem Ht _ IH]; simpl.
  - reflexivity.
  - reflexivity.
  - rewrite Ht. reflexivity.
  - rewrite Ht, IH. reflexivity.
Qed.

Lemma table_complete (h : hint) :
  forall f, _hint_to_field h = Ok f -> table h f.
Proof.
  induction h as [p|cname emb|o arg IH args|v nm|repr]; simpl; intros f Hf.
  - injection Hf as <-. constructor.
  - destruct emb; [|discriminate]. injection Hf as <-. constructor.
  - destruct o; [|discriminate].
    destruct (str_is_tilde_T arg) eqn:Ht.
    + injection Hf as <-. now constructor.
    + destruct (_hint_to_field arg) as [elem|e]; simpl in Hf; [|discriminate].
      injection Hf as <-. constructor; auto.
  - discriminate.
  - discriminate.
Qed.

(** [_hint_to_field] builds exactly the field the table gives, and
    raises [TypeError] exactly when the table gives none. *)
Lemma hint_to_field_cases (h : hint) :
  (forall f, _hint_to_field h = Ok f <-> table h f) /\
  (_hint_to_field h = Raise (TypeError cannot_convert) <->
   ~ exists f, table h f) /\
  (forall e, _hint_to_field h = Raise e -> e = TypeError cannot_convert).
Proof.
  split; [|split].
  - intros f; split; [apply table_complete | apply table_sound].
  - split.
    + intros Hr [f Hf]. apply table_sound in Hf. congruence.
    + intros Hn. destruct (hint_to_field_total h) as [[f Hf]|Hr]; [|exact Hr].
      exfalso. apply Hn. exists f. now apply table_complete.
  - intros e He. destruct (hint_to_field_total h) as [[f Hf]|Hr]; congruence.
Qed.

(** [List[S]] for a type variable [S]: an unbound type-variable element,
    which the claim sends to an untyped list field; the code raises. *)
Definition list_of_S : hint := HGeneric OriginList (HTypeVar Invariant "S") [].

Lemma list_of_typevar_S_raises :
  table_any_typevar list_of_S (new_field ListField) /\
  _hint_to_field list_of_S = Raise (TypeError cannot_convert) /\
  ~ (forall h f, table_any_typevar h f -> _hint_to_field h = Ok f).
Proof.
  assert (Hw : table_any_typevar list_of_S (new_field ListField))
    by (constructor; reflexivity).
  split; [exact Hw|]. split; [reflexivity|].
  intros Hall. specialize (Hall _ _ Hw). discriminate.
Qed.

(** ** Dictionary facts *)

Lemma dict_get_set (V : Type) (d : dict V) (k k' : string) (v : V) :
  dict_get (dict_set d k v) k' =
  if String.eqb k k' then Some v else dict_get d k'.
Proof.
  induction d as [|[k0 v0] d IH]; simpl.
  - reflexivity.
  - destruct (String.eqb k0 k) eqn:E0; simpl.
    + apply String.eqb_eq in E0. subst k0.
      destruct (String.eqb k k'); reflexivity.
    + destruct (String.eqb k0 k') eqn:E1.
      * apply String.eqb_eq in E1. subst k0.
        rewrite String.eqb_sym, E0. reflexivity.
      * exact IH.
Qed.

Lemma find_app (A : Type) (p : A -> bool) (l1 l2 : list A) :
  find p (l1 ++ l2) =
  match find p l1 with Some x => Some x | None => find p l2 end.
Proof.
  induction l1 as [|x l1 IH]; simpl; [reflexivity|].
  destruct (p x); [reflexivity | exact IH].
Qed.

Lemma find_map (A B : Type) (p : B -> bool) (f : A -> B) (l : list A) :
  find p (map f l) = option_map f (find (fun x => p (f x)) l).
Proof.
  induction l as [|x l IH]; simpl; [reflexivity|].
  destruct (p (f x)); [reflexivity | exact IH].
Qed.

(** ** The overrides of [_process_meta] *)

Definition is_field (d : namespace) (nm : string) : bool :=
  match field_of d nm with Some _ => true | None => false end.

(** The names the four overrides refer to, in the order the code visits
    them. *)
Definition override_names (m : Meta) : list string :=
  map fst (meta_aliases m) ++ meta_required_names m ++
  map fst (meta_converters m) ++ map fst (meta_validators m).

Definition apply_aliases (l : list (string * string)) (d : namespace) :=
  fold_left (fun d x => update_field d (fst x) (fun f => set_name f (snd x))) l d.
Definition apply_required (l : list string) (d : namespace) :=
  fold_left (fun d x => update_field d x (fun f => set_required f true)) l d.
Definition apply_converters (l : dict string) (d : namespace) :=
  fold_left (fun d x => update_field d (fst x) (fun f => set_converter f (snd x))) l d.
Definition apply_validators (l : dict string) (d : namespace) :=
  fold_left (fun d x => update_field d (fst x) (fun f => set_validator f (snd x))) l d.

Lemma is_field_update (d : namespace) (nm nm' : string) (g : Field -> Field) :
  is_field (update_field d nm g) nm' = is_field d nm'.
Proof.
  unfold is_field, update_field, field_of.
  destruct (dict_get d nm) as [[f| | | | |]|] eqn:E; try reflexivity.
  rewrite dict_get_set.
  destruct (String.eqb nm nm') eqn:En; [|reflexivity].
  apply String.eqb_eq in En. subst nm'. rewrite E. reflexivity.
Qed.

Section OverrideLoop.
Variable A : Type.
Variable key : A -> string.
Variable change : A -> Field -> Field.

Definition override_step (d : namespace) (x : A) : M namespace :=
  ensure_field_exist d (key x) ;;;
  ret (update_field d (key x) (change x)).

Definition apply_overrides (l : list A) (d : namespace) : namespace :=
  fold_left (fun d x => update_field d (key x) (change x)) l d.

Lemma is_field_apply_overrides (l : list A) (d : namespace) (nm : string) :
  is_field (apply_overrides l d) nm = is_field d nm.
Proof.
  revert d. induction l as [|x l IH]; intros d; simpl; [reflexivity|].
  unfold apply_overrides in IH. rewrite IH. apply is_field_update.
Qed.

(** The loop stops at the first name that is not a field, and has
    changed the fields before it. *)
Lemma for_each_override (l : list A) (d : namespace) (t : list event) :
  for_each override_step l d t =
  match find (fun x => negb (is_field d (key x))) l with
  | Some x => (Raise (ValueError (key x)), t)
  | None => (Ok (apply_overrides l d), t)
  end.
Proof.
  revert d. induction l as [|x l IH]; intros d; simpl; [reflexivity|].
  unfold bind at 1. unfold override_step at 1, ensure_field_exist, is_field.
  unfold bind at 1.
  destruct (field_of d (key x)) as [f|] eqn:E; simpl; [|reflexivity].
  rewrite IH.
  assert (Hfind : find (fun y => negb (is_field (update_field d (key x) (change x)) (key y))) l
                  = find (fun y => negb (is_field d (key y))) l).
  { clear. induction l as [|y l IHl]; simpl; [reflexivity|].
    rewrite is_field_update, IHl. reflexivity. }
  unfold is_field in Hfind. unfold is_field. rewrite Hfind. reflexivity.
Qed.
End OverrideLoop.

Lemma alias_step_override :
  alias_step = override_step fst (fun x f => set_name f (snd x)).
Proof. reflexivity. Qed.

Lemma required_step_override :
  required_step = override_step (fun x => x) (fun _ f => set_required f true).
Proof. reflexivity. Qed.

Lemma converter_step_override :
  converter_step = override_step fst (fun x f => set_converter f (snd x)).
Proof. reflexivity. Qed.

Lemma validator_step_override :
  validator_step = override_step fst (fun x f => set_validator f (snd x)).
Proof. reflexivity. Qed.

Lemma find_unknown_after (A : Type) (key : A -> string)
    (change : A -> Field -> Field) (l : list A) (d : namespace)
    (names : list string) :
  find (fun n => negb (is_field (apply_overrides key change l d) n)) names =
  find (fun n => negb (is_field d n)) names.
Proof.
  induction names as [|n names IH]; simpl; [reflexivity|].
  rewrite is_field_apply_overrides, IH. reflexivity.
Qed.

Lemma for_each_override_names (A : Type) (key : A -> string)
    (change : A -> Field -> Field) (l : list A) (d : namespace)
    (t : list event) :
  for_each (override_step key change) l d t =
  match find (fun n => negb (is_field d n)) (map key l) with
  | Some n => (Raise (ValueError n), t)
  | None => (Ok (apply_overrides key change l d), t)
  end.
Proof.
  rewrite for_each_override, find_map.
  destruct (find _ l); reflexivity.
Qed.

Lemma process_meta_dict_from (d : namespace) (t : list event) :
  process_meta_dict d t =
  match find (fun n => negb (is_field d n)) (override_names (meta_of d)) with
  | Some n => (Raise (ValueError n), t)
  | None =>
      (Ok (apply_validators (meta_validators (meta_of d))
             (apply_converters (meta_converters (meta_of d))
                (apply_required (meta_required_names (meta_of d))
                   (apply_aliases (meta_aliases (meta_of d)) d)))), t)
  end.
Proof.
  unfold process_meta_dict, override_names.
  set (m := meta_of d).
  rewrite alias_step_override, required_step_override,
    converter_step_override, validator_step_override.
  unfold bind.
  rewrite !find_app.
  rewrite for_each_override_names.
  destruct (find _ (map fst (meta_aliases m))); [reflexivity|].
  rewrite for_each_override_names, find_unknown_after, map_id.
  destruct (find _ (meta_required_names m)); [reflexivity|].
  rewrite for_each_override_names, !find_unknown_after.
  destruct (find _ (map fst (meta_converters m))); [reflexivity|].
  rewrite for_each_override_names, !find_unknown_after.
  destruct (find _ (map fst (meta_validators m))); reflexivity.
Qed.


(** [Meta] naming two unknown fields, one as alias and one as required:
    the alias is reported, being visited first; with the alias fixed,
    the required name is. *)
Example process_meta_reports_alias_first :
  let body (alias_of : string) : namespace :=
    [("title", AField (mkField StringField (Some "title") false None None None));
     ("Meta", AMeta (mkMeta (Some (AliasPairs [(alias_of, "t")]))
                            (Some ["author"]) None None))] in
  run (_process_meta (mkClass "Post" (body "headline") [] []))
    = (Raise (ValueError "headline"), []) /\
  run (_process_meta (mkClass "Post" (body "title") [] []))
    = (Raise (ValueError "author"), []).
Proof. split; reflexivity. Qed.

Example hint_to_field_examples :
  _hint_to_field (HGeneric OriginList (HTypeVar Invariant "T") [])
    = Ok (new_field ListField) /\
  _hint_to_field (HGeneric OriginList (HGeneric OriginList (HPrim Pint) []) [])
    = Ok (new_field (ArrayField (new_field (ArrayField (new_field IntField))))) /\
  _hint_to_field (HGeneric (OriginOther "dict") (HPrim Pstr) [HPrim Pint])
    = Raise (TypeError cannot_convert) /\
  _hint_to_field (HClass "Decimal" false) = Raise (TypeError cannot_convert).
Proof. repeat split; reflexivity. Qed.

(** ** The loop of [_parse_type_hints] *)

(** The annotations of the class's own body, among the hints
    [get_type_hints] returns, in that order. *)
Definition own_names (annotations : dict hint) (types : dict hint)
    : list string :=
  map fst (filter (fun item => dict_mem annotations (fst item)) types).

(** The field built for [nm] from the field [f] of its hint and from
    what the class holds under [nm]. *)
Definition derive (f : Field) (nm : string) (x : option attr_value) : Field :=
  if is_not_None x
  then set_default (set_name f nm)
         (match x with Some a => attr_as_value a | None => VNone end)
  else set_name f nm.

Lemma dict_get_sync_other (d : namespace) (o : list string) (k : string) :
  k <> "_field_order" ->
  dict_get (sync_field_order d o) k = dict_get d k.
Proof.
  intros Hk. unfold sync_field_order.
  destruct (dict_get d "_field_order") as [[| | | |l|]|]; try reflexivity.
  rewrite dict_get_set.
  destruct (String.eqb "_field_order" k) eqn:E; [|reflexivity].
  apply String.eqb_eq in E. congruence.
Qed.

Lemma dict_get_sync_order (d : namespace) (o o' : list string) :
  dict_get d "_field_order" = Some (AFieldOrder o) ->
  dict_get (sync_field_order d o') "_field_order" = Some (AFieldOrder o').
Proof.
  intros H. unfold sync_field_order. rewrite H, dict_get_set.
  rewrite String.eqb_refl. reflexivity.
Qed.

Lemma parse_step_skip (ann : dict hint) (d : namespace) (o : list string)
    (nm : string) (h : hint) (t : list event) :
  dict_mem ann nm = false ->
  parse_hint_step ann (d, o) (nm, h) t = (Ok (d, o), t).
Proof. intros H. unfold parse_hint_step. rewrite H. reflexivity. Qed.

Lemma parse_step_own (ann : dict hint) (d : namespace) (o : list string)
    (nm : string) (h : hint) (t : list event) :
  dict_mem ann nm = true ->
  parse_hint_step ann (d, o) (nm, h) t =
  match _hint_to_field h with
  | Ok f =>
      let d1 := sync_field_order d (o ++ [nm]) in
      (Ok (dict_set d1 nm (AField (derive f nm (dict_get d1 nm))), o ++ [nm]), t)
  | Raise e => (Raise e, t)
  end.
Proof.
  intros H. unfold parse_hint_step. rewrite H. simpl.
  unfold bind, lift, ret. destruct (_hint_to_field h) as [f|e]; [|reflexivity].
  unfold derive, class_getattr. simpl.
  destruct (is_not_None _); reflexivity.
Qed.

(** C2, as the code has it.  A hint that is not an annotation of the
    class's own body is passed over; for an annotation of the body the
    schema builder builds exactly the field the table gives: the ten
    primitive hints give their field classes, an embedded-model class
    an embedded field, a list whose element is the type variable printed
    [~T] (what a bare [List] carries) an untyped list field, a list of
    any other element the array field of that element's field; it
    raises [TypeError], and the class definition fails with it, exactly
    when the hint is in none of these cases. *)
Theorem annotation_to_field (h : hint) :
  (forall f, _hint_to_field h = Ok f <-> table h f) /\
  (_hint_to_field h = Raise (TypeError cannot_convert) <->
   ~ exists f, table h f) /\
  (forall e, _hint_to_field h = Raise e -> e = TypeError cannot_convert) /\
  (forall ann d o nm t,
     dict_mem ann nm = false ->
     parse_hint_step ann (d, o) (nm, h) t = (Ok (d, o), t)) /\
  (forall ann d o nm t,
     dict_mem ann nm = true ->
     (~ exists f, table h f) ->
     parse_hint_step ann (d, o) (nm, h) t
       = (Raise (TypeError cannot_convert), t)) /\
  (forall ann d o nm t,
     dict_mem ann nm = true ->
     (exists f, table h f) ->
     exists f d', table h f /\
       parse_hint_step ann (d, o) (nm, h) t = (Ok (d', o ++ [nm]), t) /\
       option_map kind (field_of d' nm) = Some (kind f)).
Proof.
  destruct (hint_to_field_cases h) as (Hok & Hraise & Honly).
  split; [exact Hok|]. split; [exact Hraise|]. split; [exact Honly|].
  split; [|split].
  - intros ann d o nm t Hown. now apply parse_step_skip.
  - intros ann d o nm t Hown Hnone.
    rewrite parse_step_own by exact Hown.
    apply Hraise in Hnone. now rewrite Hnone.
  - intros ann d o nm t Hown [f Hf].
    exists f. eexists. split; [exact Hf|].
    rewrite parse_step_own by exact Hown.
    apply Hok in Hf. rewrite Hf. cbv zeta. split; [reflexivity|].
    unfold field_of. rewrite dict_get_set, String.eqb_refl. simpl.
    unfold derive. destruct f. destruct (is_not_None _); reflexivity.
Qed.

Lemma for_each_nil (A S : Type) (body : S -> A -> M S) (s : S)
    (t : list event) :
  for_each body [] s t = (Ok s, t).
Proof. reflexivity. Qed.

Lemma for_each_cons (A S : Type) (body : S -> A -> M S) (x : A)
    (l : list A) (s : S) (t : list event) :
  for_each body (x :: l) s t =
  match body s x t with
  | (Ok s', t') => for_each body l s' t'
  | (Raise e, t') => (Raise e, t')
  end.
Proof. reflexivity. Qed.

Lemma parse_loop_order (ann : dict hint) (types : dict hint) :
  forall d o t d' o' t',
    for_each (parse_hint_step ann) types (d, o) t = (Ok (d', o'), t') ->
    o' = o ++ own_names ann types /\ t' = t.
Proof.
  unfold own_names.
  induction types as [|[nm h] types IH]; intros d o t d' o' t' H.
  - rewrite for_each_nil in H. injection H as <- <- <-. simpl. now rewrite app_nil_r.
  - rewrite for_each_cons in H. simpl filter.
    destruct (dict_mem ann nm) eqn:Hown.
    + rewrite parse_step_own in H by exact Hown.
      destruct (_hint_to_field h) as [f|e]; [|discriminate].
      simpl in H. apply IH in H. destruct H as [-> ->].
      simpl. now rewrite <- app_assoc.
    + rewrite parse_step_skip in H by exact Hown. now apply IH in H.
Qed.

Lemma parse_loop_raise (ann : dict hint) (types : dict hint) :
  forall d o t e t',
    for_each (parse_hint_step ann) types (d, o) t = (Raise e, t') ->
    e = TypeError cannot_convert /\ t' = t.
Proof.
  induction types as [|[nm h] types IH]; intros d o t e t' H.
  - discriminate.
  - rewrite for_each_cons in H.
    destruct (dict_mem ann nm) eqn:Hown.
    + rewrite parse_step_own in H by exact Hown.
      destruct (_hint_to_field h) as [f|e0] eqn:Hh.
      * simpl in H. now apply IH in H.
      * injection H as <- <-. split; [|reflexivity].
        now apply (hint_to_field_cases h).
    + rewrite parse_step_skip in H by exact Hown. now apply IH in H.
Qed.

(** The loop returns when every own annotation has a field. *)
Lemma parse_loop_success (ann : dict hint) (types : dict hint) :
  (forall nm h, In (nm, h) types -> dict_mem ann nm = true ->
                exists f, _hint_to_field h = Ok f) ->
  forall d o t, exists d',
    for_each (parse_hint_step ann) types (d, o) t =
    (Ok (d', o ++ own_names ann types), t).
Proof.
  unfold own_names.
  induction types as [|[nm h] types IH]; intros Hall d o t.
  - exists d. simpl. now rewrite app_nil_r.
  - rewrite for_each_cons. simpl filter.
    assert (Hrest : forall nm0 h0, In (nm0, h0) types ->
              dict_mem ann nm0 = true -> exists f, _hint_to_field h0 = Ok f)
      by (intros; eapply Hall; [right|]; eauto).
    destruct (dict_mem ann nm) eqn:Hown.
    + rewrite parse_step_own by exact Hown.
      destruct (Hall nm h (or_introl eq_refl) Hown) as [f ->]. cbv zeta.
      destruct (IH Hrest (dict_set (sync_field_order d (o ++ [nm])) nm
                  (AField (derive f nm (dict_get (sync_field_order d (o ++ [nm])) nm))))
                  (o ++ [nm]) t) as [d' Hd'].
      exists d'. etransitivity; [exact Hd'|]. simpl. now rewrite <- app_assoc.
    + rewrite parse_step_skip by exact Hown. apply (IH Hrest).
Qed.

(** What the loop leaves alone. *)
Lemma parse_loop_frame (ann : dict hint) (types : dict hint) (k : string) :
  k <> "_field_order" ->
  ~ In k (own_names ann types) ->
  forall d o t d' o' t',
    for_each (parse_hint_step ann) types (d, o) t = (Ok (d', o'), t') ->
    dict_get d' k = dict_get d k.
Proof.
  intros Hk. unfold own_names.
  induction types as [|[nm h] types IH]; intros Hnot d o t d' o' t' H.
  - rewrite for_each_nil in H. now injection H as <- <- <-.
  - rewrite for_each_cons in H. simpl filter in Hnot.
    destruct (dict_mem ann nm) eqn:Hown.
    + rewrite parse_step_own in H by exact Hown.
      destruct (_hint_to_field h) as [f|e]; [|discriminate].
      simpl in H, Hnot. apply IH in H; [|tauto].
      rewrite H, dict_get_set.
      destruct (String.eqb nm k) eqn:E.
      * apply String.eqb_eq in E. tauto.
      * now apply dict_get_sync_other.
    + rewrite parse_step_skip in H by exact Hown. now apply IH in H.
Qed.

(** The class's [_field_order] follows the list. *)
Lemma parse_loop_field_order (ann : dict hint) (types : dict hint) :
  ~ In "_field_order" (own_names ann types) ->
  forall d o t d' o' t',
    dict_get d "_field_order" = Some (AFieldOrder o) ->
    for_each (parse_hint_step ann) types (d, o) t = (Ok (d', o'), t') ->
    dict_get d' "_field_order" = Some (AFieldOrder o').
Proof.
  unfold own_names.
  induction types as [|[nm h] types IH]; intros Hnot d o t d' o' t' Hd H.
  - rewrite for_each_nil in H. now injection H as <- <- <-.
  - rewrite for_each_cons in H. simpl filter in Hnot.
    destruct (dict_mem ann nm) eqn:Hown.
    + rewrite parse_step_own in H by exact Hown.
      destruct (_hint_to_field h) as [f|e]; [|discriminate].
      simpl in H, Hnot. eapply IH; [tauto| |exact H].
      rewrite dict_get_set.
      destruct (String.eqb nm "_field_order") eqn:E.
      * apply String.eqb_eq in E. subst nm. tauto.
      * now apply dict_get_sync_order with (o := o).
    + rewrite parse_step_skip in H by exact Hown. now apply IH with (2 := Hd) in H.
Qed.

(** Keys are unique, as in any Python dictionary. *)
Fixpoint unique_keys (l : list string) : bool :=
  match l with
  | [] => true
  | k :: l' => negb (str_in k l') && unique_keys l'
  end.

Lemma str_in_In (k : string) (l : list string) :
  str_in k l = true <-> In k l.
Proof.
  unfold str_in. rewrite existsb_exists. split.
  - intros [x [Hx E]]. apply String.eqb_eq in E. now subst.
  - intros H. exists k. split; [exact H | apply String.eqb_refl].
Qed.

Lemma unique_keys_NoDup (l : list string) :
  unique_keys l = true -> NoDup l.
Proof.
  induction l as [|k l IH]; simpl; intros H; constructor.
  - apply andb_prop in H. destruct H as [H _].
    intros Hin. apply str_in_In in Hin. rewrite Hin in H. discriminate.
  - apply IH. apply andb_prop in H. tauto.
Qed.

Lemma dict_get_In (V : Type) (d : dict V) (k : string) (v : V) :
  dict_get d k = Some v -> In (k, v) d.
Proof.
  induction d as [|[k0 v0] d IH]; simpl; [discriminate|].
  destruct (String.eqb k0 k) eqn:E.
  - apply String.eqb_eq in E. intros [= ->]. left. congruence.
  - intros H. right. auto.
Qed.

Lemma own_names_incl (ann types : dict hint) (k : string) :
  In k (own_names ann types) -> In k (map fst types).
Proof.
  unfold own_names. rewrite !in_map_iff.
  intros [x [Hx Hin]]. apply filter_In in Hin. exists x. tauto.
Qed.

Lemma hint_field_fresh (h : hint) (f : Field) :
  _hint_to_field h = Ok f -> exists k, f = new_field k.
Proof.
  intros H. apply table_complete in H. destruct H; eauto.
Qed.

(** The entry of an own annotation after the loop: the field of its
    hint, named, with the default read from the class as it was. *)
Lemma parse_loop_field (ann : dict hint) (types : dict hint)
    (nm : string) (h : hint) :
  NoDup (map fst types) ->
  In (nm, h) types ->
  dict_mem ann nm = true ->
  nm <> "_field_order" ->
  forall d o t d' o' t',
    for_each (parse_hint_step ann) types (d, o) t = (Ok (d', o'), t') ->
    exists f0, _hint_to_field h = Ok f0 /\
               dict_get d' nm = Some (AField (derive f0 nm (dict_get d nm))).
Proof.
  intros Hnd Hin Hown Hnm.
  induction types as [|[nm0 h0] types IH]; intros d o t d' o' t' H;
    [contradiction|].
  rewrite for_each_cons in H.
  simpl in Hnd. inversion Hnd as [|x l Hnotin Hnd']. subst x l.
  destruct (dict_mem ann nm0) eqn:Hown0.
  - rewrite parse_step_own in H by exact Hown0.
    destruct (_hint_to_field h0) as [f|e] eqn:Hh0; [|discriminate].
    cbv zeta in H.
    destruct Hin as [Heq|Hin].
    + injection Heq as -> ->. exists f. split; [exact Hh0|].
      eapply parse_loop_frame in H; [| exact Hnm |].
      * rewrite H, dict_get_set, String.eqb_refl.
        now rewrite dict_get_sync_other.
      * intros Hc. apply own_names_incl in Hc. contradiction.
    + assert (Hne : nm0 <> nm).
      { intros ->. apply Hnotin. apply in_map_iff. exists (nm, h). split; auto. }
      destruct (IH Hnd' Hin _ _ _ _ _ _ H) as [f0 [Hf0 Hget]].
      exists f0. split; [exact Hf0|].
      rewrite Hget, dict_get_set.
      apply String.eqb_neq in Hne. rewrite Hne.
      now rewrite dict_get_sync_other.
  - rewrite parse_step_skip in H by exact Hown0.
    destruct Hin as [Heq|Hin].
    + injection Heq as -> ->. congruence.
    + now apply (IH Hnd' Hin _ _ _ _ _ _ H).
Qed.

Lemma parse_annotated_run (cls : class) (ann types : dict hint) :
  get_type_hints cls = Ok types ->
  run (parse_annotated ann cls) =
  let o := field_order_of (cls_dict cls) in
  let t := if negb (Nat.eqb (List.length o) 0)
           then [Warned mixing_warning] else [] in
  match for_each (parse_hint_step ann) types (cls_dict cls, o) t with
  | (Ok st, t') => (Ok (with_dict cls (fst st)), t')
  | (Raise e, t') => (Raise e, t')
  end.
Proof.
  intros Hty. unfold run, parse_annotated. rewrite Hty.
  unfold bind, lift, emit, ret.
  destruct (negb (Nat.eqb (List.length (field_order_of (cls_dict cls))) 0));
    simpl; destruct (for_each _ _ _ _) as [[st|e] t']; reflexivity.
Qed.

Lemma parse_type_hints_run (cls : class) (ann types : dict hint) :
  dict_get (cls_dict cls) "__annotations__" = Some (AAnnotations ann) ->
  get_type_hints cls = Ok types ->
  run (_parse_type_hints cls) =
  let o := field_order_of (cls_dict cls) in
  let t := if negb (Nat.eqb (List.length o) 0)
           then [Warned mixing_warning] else [] in
  match for_each (parse_hint_step ann) types (cls_dict cls, o) t with
  | (Ok st, t') => (Ok (with_dict cls (fst st)), t')
  | (Raise e, t') => (Raise e, t')
  end.
Proof.
  intros Hann Hty. unfold _parse_type_hints. rewrite Hann.
  now apply parse_annotated_run.
Qed.

(** C10.  For an annotated attribute of the class's own body, the
    derived field carries the attribute name and: no default when the
    class-level value is [None] or the attribute has no class-level
    value; the class-level value as default when it is not [None]. *)
Theorem annotated_default (cls cls' : class) (ann types : dict hint)
    (nm : string) (h : hint) (t : list event) :
  dict_get (cls_dict cls) "__annotations__" = Some (AAnnotations ann) ->
  get_type_hints cls = Ok types ->
  unique_keys (dict_keys types) = true ->
  dict_get types nm = Some h ->
  dict_mem ann nm = true ->
  String.eqb nm "_field_order" = false ->
  run (_parse_type_hints cls) = (Ok cls', t) ->
  exists f,
    field_of (cls_dict cls') nm = Some f /\
    name f = Some nm /\
    (dict_get (cls_dict cls) nm = Some (AValue VNone) -> default f = None) /\
    (dict_get (cls_dict cls) nm = None -> default f = None) /\
    (forall v, dict_get (cls_dict cls) nm = Some (AValue v) ->
               v <> VNone -> default f = Some v).
Proof.
  intros Hann Hty Huniq Hget Hown Hnm Hrun.
  rewrite (parse_type_hints_run cls Hann Hty) in Hrun. cbv zeta in Hrun.
  destruct (for_each _ _ _ _) as [[[d' o']|e] t'] eqn:Hloop; [|discriminate].
  injection Hrun as <- <-. simpl.
  apply String.eqb_neq in Hnm.
  destruct (@parse_loop_field ann _ nm h (unique_keys_NoDup _ Huniq)
              (dict_get_In _ _ Hget) Hown Hnm _ _ _ _ _ _ Hloop)
    as [f0 [Hf0 Hd']].
  destruct (hint_field_fresh _ Hf0) as [k ->].
  exists (derive (new_field k) nm (dict_get (cls_dict cls) nm)).
  unfold field_of. rewrite Hd'. split; [reflexivity|].
  unfold derive.
  split; [destruct (is_not_None _); reflexivity|].
  split; [intros ->; reflexivity|].
  split; [intros ->; reflexivity|].
  intros v -> Hv. destruct v; try reflexivity. congruence.
Qed.

Lemma annotated_default_witness :
  let attrs : namespace :=
    [("__annotations__",
      AAnnotations [("title", HPrim Pstr); ("visible", HPrim Pbool);
                    ("views", HPrim Pint)]);
     ("visible", AValue (VBool true)); ("views", AValue VNone)] in
  let cls := ModelType___new__ "Post" [] [] attrs in
  exists cls' f,
    fst (run (_parse_type_hints cls)) = Ok cls' /\
    field_of (cls_dict cls') "views" = Some f /\
    name f = Some "views" /\ default f = None.
Proof.
  intros attrs cls.
  destruct (run (_parse_type_hints cls)) as [r t] eqn:Hrun.
  assert (Hok : exists cls', r = Ok cls')
    by (vm_compute in Hrun; injection Hrun as <- _; eauto).
  destruct Hok as [cls' ->].
  destruct (@annotated_default cls cls'
              [("title", HPrim Pstr); ("visible", HPrim Pbool); ("views", HPrim Pint)]
              [("title", HPrim Pstr); ("visible", HPrim Pbool); ("views", HPrim Pint)]
              "views" (HPrim Pint) t eq_refl eq_refl eq_refl eq_refl eq_refl
              eq_refl Hrun)
    as [f (Hf & Hn & Hnone & _)].
  exists cls', f. repeat split; auto.
Defined.

(** ** Explicit fields and annotations in one class body *)

(** What [__new__] leaves under a key: a [Field] without name gets the
    key as name, anything else is kept. *)
Definition collected (key : string) (a : attr_value) : attr_value :=
  match a with
  | AField f =>
      AField (match name f with None => set_name f key | Some _ => f end)
  | _ => a
  end.

Lemma collect_fields_map (items : namespace) :
  fst (collect_fields items) =
  map (fun kv => (fst kv, collected (fst kv) (snd kv))) items.
Proof.
  induction items as [|[k a] items IH]; simpl; [reflexivity|].
  destruct (collect_fields items) as [rest order]. simpl in IH.
  destruct a; simpl; now rewrite IH.
Qed.

Lemma collect_fields_get (items : namespace) (k : string) :
  dict_get (fst (collect_fields items)) k =
  option_map (collected k) (dict_get items k).
Proof.
  rewrite collect_fields_map.
  induction items as [|[k0 a] items IH]; simpl; [reflexivity|].
  destruct (String.eqb k0 k) eqn:E; [|exact IH].
  apply String.eqb_eq in E. now subst.
Qed.

(** The explicit fields of a class body, in declaration order. *)
Definition explicit_fields (attrs : namespace) : list string :=
  snd (collect_fields attrs).

Lemma explicit_fields_keys (attrs : namespace) :
  explicit_fields attrs = map fst (schema_fields attrs).
Proof.
  unfold explicit_fields.
  induction attrs as [|[k a] attrs IH]; simpl; [reflexivity|].
  destruct (collect_fields attrs) as [rest order]. simpl in IH.
  destruct a; simpl; now rewrite IH.
Qed.

Lemma new_class_dict (cname : string) (bh : dict hint) (ba attrs : namespace) :
  dict_mem attrs "_no_parse_hints" = false ->
  cls_dict (ModelType___new__ cname bh ba attrs) =
  dict_set (fst (collect_fields attrs)) "_field_order"
           (AFieldOrder (explicit_fields attrs)).
Proof.
  intros H. unfold ModelType___new__, explicit_fields. rewrite H.
  destruct (collect_fields attrs); reflexivity.
Qed.

Lemma new_class_get (cname : string) (bh : dict hint) (ba attrs : namespace)
    (k : string) :
  dict_mem attrs "_no_parse_hints" = false ->
  dict_get (cls_dict (ModelType___new__ cname bh ba attrs)) k =
  if String.eqb "_field_order" k
  then Some (AFieldOrder (explicit_fields attrs))
  else option_map (collected k) (dict_get attrs k).
Proof.
  intros H. rewrite new_class_dict by exact H.
  rewrite dict_get_set, collect_fields_get. reflexivity.
Qed.

Lemma new_class_base_hints (cname : string) (bh : dict hint)
    (ba attrs : namespace) :
  base_hints (ModelType___new__ cname bh ba attrs) = bh.
Proof.
  unfold ModelType___new__.
  destruct (dict_mem attrs "_no_parse_hints"); [reflexivity|].
  destruct (collect_fields attrs); reflexivity.
Qed.

(** Every own annotation has got its field when the loop returns. *)
Lemma parse_loop_built (ann : dict hint) (types : dict hint) (nm : string) :
  nm <> "_field_order" ->
  forall d o t d' o' t',
    is_field d nm = true \/ In nm (own_names ann types) ->
    for_each (parse_hint_step ann) types (d, o) t = (Ok (d', o'), t') ->
    is_field d' nm = true.
Proof.
  intros Hnm. unfold own_names.
  induction types as [|[nm0 h0] types IH]; intros d o t d' o' t' Hpre H.
  - rewrite for_each_nil in H. injection H as <- <- <-.
    destruct Hpre as [Hpre|[]]. exact Hpre.
  - rewrite for_each_cons in H. simpl filter in Hpre.
    destruct (dict_mem ann nm0) eqn:Hown.
    + rewrite parse_step_own in H by exact Hown.
      destruct (_hint_to_field h0) as [f|e]; [|discriminate].
      cbv zeta in H. eapply IH; [|exact H].
      unfold is_field, field_of. rewrite dict_get_set.
      destruct (String.eqb nm0 nm) eqn:E; [left; reflexivity|].
      rewrite dict_get_sync_other by exact Hnm.
      destruct Hpre as [Hpre|[Heq|Hin]].
      * left. exact Hpre.
      * simpl in Heq. subst nm0. rewrite String.eqb_refl in E. discriminate.
      * right. exact Hin.
    + rewrite parse_step_skip in H by exact Hown. eapply IH; eauto.
Qed.

Lemma field_order_of_update (d : namespace) (nm : string) (g : Field -> Field) :
  field_order_of (update_field d nm g) = field_order_of d.
Proof.
  unfold field_order_of, update_field, field_of.
  destruct (dict_get d nm) as [[f| | | | |]|] eqn:E; try reflexivity.
  rewrite dict_get_set.
  destruct (String.eqb nm "_field_order") eqn:En; [|reflexivity].
  apply String.eqb_eq in En. subst nm. rewrite E. reflexivity.
Qed.

Lemma field_order_of_apply_overrides (A : Type) (key : A -> string)
    (change : A -> Field -> Field) (l : list A) (d : namespace) :
  field_order_of (apply_overrides key change l d) = field_order_of d.
Proof.
  revert d. induction l as [|x l IH]; intros d; [reflexivity|].
  change (apply_overrides key change (x :: l) d)
    with (apply_overrides key change l (update_field d (key x) (change x))).
  rewrite IH. apply field_order_of_update.
Qed.

Lemma field_order_of_overridden (m : Meta) (d : namespace) :
  field_order_of
    (apply_validators (meta_validators m)
       (apply_converters (meta_converters m)
          (apply_required (meta_required_names m)
             (apply_aliases (meta_aliases m) d)))) = field_order_of d.
Proof.
  transitivity (field_order_of
    (apply_converters (meta_converters m)
       (apply_required (meta_required_names m)
          (apply_aliases (meta_aliases m) d)))).
  { exact (field_order_of_apply_overrides fst
             (fun x f => set_validator f (snd x)) _ _). }
  transitivity (field_order_of
    (apply_required (meta_required_names m)
       (apply_aliases (meta_aliases m) d))).
  { exact (field_order_of_apply_overrides fst
             (fun x f => set_converter f (snd x)) _ _). }
  transitivity (field_order_of (apply_aliases (meta_aliases m) d)).
  { exact (field_order_of_apply_overrides (fun x => x)
             (fun _ f => set_required f true) _ _). }
  exact (field_order_of_apply_overrides fst
           (fun x f => set_name f (snd x)) _ _).
Qed.

(** Every own annotation has a field. *)
Definition hints_mappable (ann types : dict hint) : bool :=
  forallb (fun item =>
             negb (dict_mem ann (fst item)) ||
             match _hint_to_field (snd item) with
             | Ok _ => true
             | Raise _ => false
             end) types.

Lemma hints_mappable_spec (ann types : dict hint) :
  hints_mappable ann types = true ->
  forall nm h, In (nm, h) types -> dict_mem ann nm = true ->
               exists f, _hint_to_field h = Ok f.
Proof.
  unfold hints_mappable. rewrite forallb_forall.
  intros H nm h Hin Hown. specialize (H _ Hin). simpl in H.
  rewrite Hown in H. simpl in H.
  destruct (_hint_to_field h) as [f|e]; [eauto | discriminate].
Qed.

Lemma own_names_annotated (ann types : dict hint) (k : string) :
  In k (own_names ann types) -> dict_mem ann k = true.
Proof.
  unfold own_names. rewrite in_map_iff.
  intros [x [<- Hin]]. apply filter_In in Hin. tauto.
Qed.

(** The hints of a new class whose annotations evaluate and which is
    not under [__no_type_check__]. *)
Lemma new_class_type_hints (cname : string) (bh : dict hint)
    (ba attrs : namespace) (ann : dict hint) :
  dict_mem attrs "_no_parse_hints" = false ->
  no_type_check (ModelType___new__ cname bh ba attrs) = false ->
  dict_get attrs "__annotations__" = Some (AAnnotations ann) ->
  get_type_hints (ModelType___new__ cname bh ba attrs)
  = Ok (dict_update bh ann).
Proof.
  intros Hno Hntc Hann. unfold get_type_hints. rewrite Hntc.
  rewrite new_class_get by exact Hno. simpl. rewrite Hann. simpl.
  now rewrite new_class_base_hints.
Qed.

(** C5.  A class body with explicit [Field] objects and annotations,
    neither it nor a base holding a true [__no_type_check__]:
    [_parse_type_hints] emits the mixing warning and returns, every
    annotation of the body has got its field, and the field order is
    the explicit fields in declaration order followed by the
    annotation-derived ones; the definition of the class then succeeds
    with that warning and that order whenever the overrides of [Meta]
    name fields. *)
Theorem mixed_declaration (cname : string) (bh : dict hint)
    (ba attrs : namespace) (ann : dict hint) :
  dict_mem attrs "_no_parse_hints" = false ->
  no_type_check (ModelType___new__ cname bh ba attrs) = false ->
  dict_get attrs "__annotations__" = Some (AAnnotations ann) ->
  explicit_fields attrs <> [] ->
  hints_mappable ann (dict_update bh ann) = true ->
  dict_mem ann "_field_order" = false ->
  let cls0 := ModelType___new__ cname bh ba attrs in
  let derived := own_names ann (dict_update bh ann) in
  exists cls1,
    run (_parse_type_hints cls0) = (Ok cls1, [Warned mixing_warning]) /\
    field_order_of (cls_dict cls1) = explicit_fields attrs ++ derived /\
    (forall nm, In nm derived -> is_field (cls_dict cls1) nm = true) /\
    (find (fun n => negb (is_field (cls_dict cls1) n))
          (override_names (meta_of (cls_dict cls1))) = None ->
     exists cls2,
       run (define_class cname bh ba attrs) =
         (Ok cls2, [Warned mixing_warning]) /\
       field_order_of (cls_dict cls2) = explicit_fields attrs ++ derived).
Proof.
  intros Hno Hntc Hann Hexp Hmap Hfo cls0 derived.
  assert (Hann0 : dict_get (cls_dict cls0) "__annotations__"
                  = Some (AAnnotations ann)).
  { unfold cls0. rewrite new_class_get by exact Hno. simpl. now rewrite Hann. }
  assert (Hfo0 : dict_get (cls_dict cls0) "_field_order"
                 = Some (AFieldOrder (explicit_fields attrs))).
  { unfold cls0. rewrite new_class_get by exact Hno. reflexivity. }
  assert (Hord0 : field_order_of (cls_dict cls0) = explicit_fields attrs).
  { unfold field_order_of. now rewrite Hfo0. }
  assert (Hty : get_type_hints cls0 = Ok (dict_update bh ann)).
  { exact (@new_class_type_hints cname bh ba attrs ann Hno Hntc Hann). }
  assert (Hnp0 : dict_mem (cls_dict cls0) "_no_parse_hints" = false).
  { unfold dict_mem, cls0. rewrite new_class_get by exact Hno. simpl.
    unfold dict_mem in Hno.
    destruct (dict_get attrs "_no_parse_hints"); [discriminate | reflexivity]. }
  assert (Hnotin : ~ In "_field_order" derived).
  { intros Hc. apply own_names_annotated in Hc. congruence. }
  assert (Hwarn : negb (Nat.eqb (List.length (explicit_fields attrs)) 0) = true).
  { destruct (explicit_fields attrs); [congruence | reflexivity]. }
  destruct (parse_loop_success ann (dict_update bh ann)
              (hints_mappable_spec _ _ Hmap) (cls_dict cls0)
              (explicit_fields attrs) [Warned mixing_warning]) as [d' Hloop].
  assert (Hrun : run (_parse_type_hints cls0)
                 = (Ok (with_dict cls0 d'), [Warned mixing_warning])).
  { rewrite (parse_type_hints_run cls0 Hann0 Hty). cbv zeta.
    rewrite Hord0, Hwarn. cbv iota.
    etransitivity; [|reflexivity].
    replace (for_each (parse_hint_step ann) (dict_update bh ann)
               (cls_dict cls0, explicit_fields attrs) [Warned mixing_warning])
      with (Ok (d', explicit_fields attrs ++ own_names ann (dict_update bh ann)),
            [Warned mixing_warning]) by (symmetry; exact Hloop).
    reflexivity. }
  assert (Hord1 : field_order_of d' = explicit_fields attrs ++ derived).
  { unfold field_order_of.
    now rewrite (@parse_loop_field_order ann _ Hnotin _ _ _ _ _ _ Hfo0 Hloop). }
  exists (with_dict cls0 d'). simpl.
  split; [exact Hrun|]. split; [exact Hord1|]. split.
  - intros nm Hin.
    eapply parse_loop_built; [| right; exact Hin | exact Hloop].
    intros ->. contradiction.
  - intros Hfind.
    exists (with_dict cls0
              (apply_validators (meta_validators (meta_of d'))
                 (apply_converters (meta_converters (meta_of d'))
                    (apply_required (meta_required_names (meta_of d'))
                       (apply_aliases (meta_aliases (meta_of d')) d'))))).
    split.
    + unfold define_class, ModelType___init__. fold cls0. rewrite Hnp0. simpl negb.
      cbv iota. unfold run, bind. unfold run in Hrun. rewrite Hrun.
      unfold _process_meta, bind. rewrite process_meta_dict_from. simpl cls_dict.
      rewrite Hfind. reflexivity.
    + simpl. rewrite field_order_of_overridden. exact Hord1.
Qed.

Lemma mixed_declaration_witness :
  let attrs : namespace :=
    [("__annotations__",
      AAnnotations [("title", HPrim Pstr); ("tags", HPrim Plist)]);
     ("rank", AField (new_field IntField));
     ("age", AField (new_field IntField))] in
  exists cls2,
    run (define_class "Post" [] [("__no_type_check__", AValue (VBool false))]
                      attrs)
    = (Ok cls2, [Warned mixing_warning]) /\
    field_order_of (cls_dict cls2) = ["rank"; "age"; "title"; "tags"].
Proof.
  intros attrs.
  assert (Hexp : explicit_fields attrs <> []) by (vm_compute; discriminate).
  destruct (@mixed_declaration "Post" []
              [("__no_type_check__", AValue (VBool false))] attrs
              [("title", HPrim Pstr); ("tags", HPrim Plist)]
              eq_refl eq_refl eq_refl Hexp eq_refl eq_refl)
    as [cls1 (Hrun & _ & _ & Hdef)].
  vm_compute in Hrun. injection Hrun as <-.
  apply Hdef. reflexivity.
Defined.

(** ** Field names after the definition of a class *)

Lemma for_each_preserves (A S : Type) (body : S -> A -> M S)
    (Inv : S -> Prop) :
  (forall s x t s' t', body s x t = (Ok s', t') -> Inv s -> Inv s') ->
  forall l s t s' t',
    for_each body l s t = (Ok s', t') -> Inv s -> Inv s'.
Proof.
  intros Hbody. induction l as [|x l IH]; intros s t s' t' H Hs.
  - rewrite for_each_nil in H. now injection H as <- <-.
  - rewrite for_each_cons in H.
    destruct (body s x t) as [[s1|e] t1] eqn:Hb; [|discriminate].
    eapply IH; [exact H|]. eapply Hbody; eauto.
Qed.

Lemma schema_fields_In (d : namespace) (k : string) (f : Field) :
  In (k, f) (schema_fields d) <-> In (k, AField f) d.
Proof.
  induction d as [|[k0 a] d IH]; simpl; [tauto|].
  destruct a as [f0| | | | |]; simpl; rewrite IH.
  - split; (intros [H|H]; [left; congruence | right; exact H]).
  - split; [tauto | intros [H|H]; [discriminate | exact H]].
  - split; [tauto | intros [H|H]; [discriminate | exact H]].
  - split; [tauto | intros [H|H]; [discriminate | exact H]].
  - split; [tauto | intros [H|H]; [discriminate | exact H]].
  - split; [tauto | intros [H|H]; [discriminate | exact H]].
Qed.

Section NameInvariant.
(** What counts as a good name. *)
Variable good : string -> Prop.

Definition named_good (f : Field) : Prop :=
  exists n, name f = Some n /\ good n.

(** A value of the namespace of a defined class: a field is named, and
    the annotated names and the aliases a [Meta] gives are good. *)
Definition value_good (a : attr_value) : Prop :=
  match a with
  | AField f => named_good f
  | AAnnotations ann => forall nm, dict_mem ann nm = true -> good nm
  | AMeta m => forall x, In x (meta_aliases m) -> good (snd x)
  | _ => True
  end.

(** A value of a class body under [key]: a field may still lack its
    name, which will be the key. *)
Definition body_value_good (key : string) (a : attr_value) : Prop :=
  match a with
  | AField f => match name f with Some n => good n | None => good key end
  | _ => value_good a
  end.

Definition values_good (d : namespace) : Prop :=
  Forall (fun kv => value_good (snd kv)) d.

Definition body_good (attrs : namespace) : Prop :=
  Forall (fun kv => body_value_good (fst kv) (snd kv)) attrs.

Lemma values_good_get (d : namespace) (k : string) (a : attr_value) :
  values_good d -> dict_get d k = Some a -> value_good a.
Proof.
  intros Hd Hget. apply dict_get_In in Hget.
  unfold values_good in Hd. rewrite Forall_forall in Hd.
  exact (Hd _ Hget).
Qed.

Lemma values_good_set (d : namespace) (k : string) (a : attr_value) :
  values_good d -> value_good a -> values_good (dict_set d k a).
Proof.
  unfold values_good. intros Hd Ha.
  induction d as [|[k0 a0] d IH]; simpl.
  - constructor; [exact Ha | constructor].
  - inversion Hd as [|x l H0 Hd']. subst x l.
    destruct (String.eqb k0 k); constructor; auto.
Qed.

Lemma values_good_collect (attrs : namespace) :
  body_good attrs -> values_good (fst (collect_fields attrs)).
Proof.
  rewrite collect_fields_map. unfold body_good, values_good.
  induction 1 as [|[k a] attrs Ha _ IH]; simpl; constructor; [|exact IH].
  simpl in *. destruct a as [f| | | | |]; simpl in *; try exact Ha.
  unfold named_good. destruct f as [kd [n|] r df c v]; simpl in *; eauto.
Qed.

Lemma values_good_sync (d : namespace) (o : list string) :
  values_good d -> values_good (sync_field_order d o).
Proof.
  intros Hd. unfold sync_field_order.
  destruct (dict_get d "_field_order") as [[| | | |l|]|]; try exact Hd.
  apply values_good_set; [exact Hd | exact I].
Qed.

Lemma named_good_derive (f : Field) (nm : string) (x : option attr_value) :
  good nm -> named_good (derive f nm x).
Proof.
  intros Hnm. exists nm. split; [|exact Hnm].
  unfold derive. destruct f. destruct (is_not_None x); reflexivity.
Qed.

Lemma values_good_update (d : namespace) (k : string) (g : Field -> Field) :
  values_good d ->
  (forall f, named_good f -> named_good (g f)) ->
  values_good (update_field d k g).
Proof.
  intros Hd Hg. unfold update_field, field_of.
  destruct (dict_get d k) as [[f| | | | |]|] eqn:E; try exact Hd.
  apply values_good_set; [exact Hd|].
  apply Hg. exact (@values_good_get d k (AField f) Hd E).
Qed.

Lemma values_good_overrides (A : Type) (key : A -> string)
    (change : A -> Field -> Field) (l : list A) :
  (forall x f, In x l -> named_good f -> named_good (change x f)) ->
  forall d, values_good d -> values_good (apply_overrides key change l d).
Proof.
  induction l as [|x l IH]; intros Hl d Hd; [exact Hd|].
  change (apply_overrides key change (x :: l) d)
    with (apply_overrides key change l (update_field d (key x) (change x))).
  apply IH.
  - intros y f Hy. apply Hl. now right.
  - apply values_good_update; [exact Hd|]. intros f. apply Hl. now left.
Qed.

Lemma values_good_parse_step (ann : dict hint) :
  (forall nm, dict_mem ann nm = true -> good nm) ->
  forall st item t st' t',
    parse_hint_step ann st item t = (Ok st', t') ->
    values_good (fst st) -> values_good (fst st').
Proof.
  intros Hann [d o] [nm h] t st' t' H Hd.
  destruct (dict_mem ann nm) eqn:Hown.
  - rewrite parse_step_own in H by exact Hown.
    destruct (_hint_to_field h) as [f|e]; [|discriminate].
    cbv zeta in H. injection H as <- <-. simpl.
    apply values_good_set; [now apply values_good_sync|].
    apply named_good_derive. now apply Hann.
  - rewrite parse_step_skip in H by exact Hown. now injection H as <- <-.
Qed.

Lemma values_good_annotated (ann : dict hint) (cls cls' : class)
    (t t' : list event) :
  (forall nm, dict_mem ann nm = true -> good nm) ->
  parse_annotated ann cls t = (Ok cls', t') ->
  values_good (cls_dict cls) -> values_good (cls_dict cls').
Proof.
  unfold parse_annotated. intros Hgood H Hd.
  unfold bind, lift in H.
  destruct (get_type_hints cls) as [types|e0]; [|discriminate].
  destruct ((if negb (Nat.eqb (List.length (field_order_of (cls_dict cls))) 0)
             then emit (Warned mixing_warning) else ret tt) t)
    as [[u|e] t1]; [|discriminate].
  destruct (for_each (parse_hint_step ann) types
              (cls_dict cls, field_order_of (cls_dict cls)) t1)
    as [[st|e] t2] eqn:Hloop; [|discriminate].
  unfold ret in H. injection H as <- <-. simpl.
  eapply (@for_each_preserves _ _ (parse_hint_step ann)
            (fun st => values_good (fst st)));
    [apply (@values_good_parse_step ann Hgood) | exact Hloop | exact Hd].
Qed.

Lemma values_good_parse (cls cls' : class) (t t' : list event) :
  _parse_type_hints cls t = (Ok cls', t') ->
  values_good (cls_dict cls) -> values_good (cls_dict cls').
Proof.
  unfold _parse_type_hints. intros H Hd.
  destruct (dict_get (cls_dict cls) "__annotations__")
    as [[| | |ann| |ref]|] eqn:Hann;
    try (unfold ret in H; injection H as <- <-; exact Hd).
  - pose proof (@values_good_get _ _ _ Hd Hann) as Hgood. simpl in Hgood.
    exact (@values_good_annotated ann cls cls' t t' Hgood H Hd).
  - apply (@values_good_annotated [] cls cls' t t'); [|exact H|exact Hd].
    intros nm Hnm. discriminate.
Qed.

Lemma values_good_process_meta (cls cls' : class) (t t' : list event) :
  _process_meta cls t = (Ok cls', t') ->
  values_good (cls_dict cls) -> values_good (cls_dict cls').
Proof.
  unfold _process_meta, bind. rewrite process_meta_dict_from.
  destruct (find _ _); [discriminate|].
  unfold ret. intros H Hd. injection H as <- <-. simpl.
  assert (Hmeta : forall x, In x (meta_aliases (meta_of (cls_dict cls))) ->
                            good (snd x)).
  { unfold meta_of.
    destruct (dict_get (cls_dict cls) "Meta") as [[|?|m| | |]|] eqn:E;
      try (intros x []).
    exact (@values_good_get _ _ _ Hd E). }
  apply (values_good_overrides fst (fun x f => set_validator f (snd x))).
  { intros x [k n r df c v] _ Hf. exact Hf. }
  apply (values_good_overrides fst (fun x f => set_converter f (snd x))).
  { intros x [k n r df c v] _ Hf. exact Hf. }
  apply (values_good_overrides (fun x => x) (fun _ f => set_required f true)).
  { intros x [k n r df c v] _ Hf. exact Hf. }
  apply (values_good_overrides fst (fun x f => set_name f (snd x)));
    [|exact Hd].
  intros x [k n r df c v] Hx _. exists (snd x). split; [reflexivity|].
  now apply Hmeta.
Qed.

(** Every field of a class that has been defined is named, with a good
    name, when the class body gives good names. *)
Lemma defined_class_names (cname : string) (bh : dict hint)
    (ba attrs : namespace) (cls : class) (t : list event) :
  dict_mem attrs "_no_parse_hints" = false ->
  body_good attrs ->
  run (define_class cname bh ba attrs) = (Ok cls, t) ->
  forall k f, In (k, f) (schema_fields (cls_dict cls)) -> named_good f.
Proof.
  intros Hno Hbody Hrun k f Hin.
  apply schema_fields_In in Hin.
  assert (H0 : values_good (cls_dict (ModelType___new__ cname bh ba attrs))).
  { rewrite new_class_dict by exact Hno.
    apply values_good_set; [now apply values_good_collect | exact I]. }
  unfold run, define_class, ModelType___init__ in Hrun.
  destruct (negb (dict_mem (cls_dict (ModelType___new__ cname bh ba attrs))
                           "_no_parse_hints")).
  - unfold bind in Hrun.
    destruct (_parse_type_hints _ []) as [[cls1|e] t1] eqn:Hparse;
      [|discriminate].
    pose proof (@values_good_parse _ _ _ _ Hparse H0) as H1.
    pose proof (@values_good_process_meta _ _ _ _ Hrun H1) as H2.
    unfold values_good in H2. rewrite Forall_forall in H2.
    exact (H2 _ Hin).
  - unfold ret in Hrun. injection Hrun as <- <-.
    unfold values_good in H0. rewrite Forall_forall in H0.
    exact (H0 _ Hin).
Qed.
End NameInvariant.

Lemma body_good_trivial (attrs : namespace) :
  body_good (fun _ => True) attrs.
Proof.
  unfold body_good. apply Forall_forall. intros [k a] _. simpl.
  destruct a as [f| | | | |]; simpl; auto. destruct (name f); exact I.
Qed.

(** C6.  After the definition of a record type (a class body without
    [_no_parse_hints], which marks the base classes), every field of its
    schema has its name set; the names are non-empty strings when the
    attribute names, the names given to explicit fields and the aliases
    are.  At collection an explicit [Field] without name gets its
    attribute name, and an annotation-derived field gets its attribute
    name when it is built. *)
Theorem schema_names_set (cname : string) (bh : dict hint)
    (ba attrs : namespace) (cls : class) (t : list event) :
  dict_mem attrs "_no_parse_hints" = false ->
  run (define_class cname bh ba attrs) = (Ok cls, t) ->
  (forall k f, In (k, f) (schema_fields (cls_dict cls)) -> name f <> None) /\
  (body_good (fun n => n <> "") attrs ->
   forall k f, In (k, f) (schema_fields (cls_dict cls)) ->
               exists n, name f = Some n /\ n <> "") /\
  (forall k f,
     dict_get attrs k = Some (AField f) -> name f = None ->
     String.eqb k "_field_order" = false ->
     field_of (cls_dict (ModelType___new__ cname bh ba attrs)) k
       = Some (set_name f k)) /\
  (forall ann d o nm h f0 t0,
     dict_mem ann nm = true -> _hint_to_field h = Ok f0 ->
     exists f,
       parse_hint_step ann (d, o) (nm, h) t0 =
         (Ok (dict_set (sync_field_order d (o ++ [nm])) nm (AField f),
              o ++ [nm]), t0) /\
       name f = Some nm).
Proof.
  intros Hno Hrun. split; [|split; [|split]].
  - intros k f Hin.
    destruct (@defined_class_names (fun _ => True) cname bh ba attrs cls t
                Hno (body_good_trivial attrs) Hrun k f Hin) as [n [Hn _]].
    congruence.
  - intros Hbody k f Hin.
    exact (@defined_class_names (fun n => n <> "") cname bh ba attrs cls t
             Hno Hbody Hrun k f Hin).
  - intros k f Hget Hname Hk.
    unfold field_of. rewrite new_class_get by exact Hno.
    rewrite String.eqb_sym, Hk, Hget. simpl. now rewrite Hname.
  - intros ann d o nm h f0 t0 Hown Hh.
    rewrite parse_step_own by exact Hown. rewrite Hh. cbv zeta.
    eexists. split; [reflexivity|].
    unfold derive. destruct f0. destruct (is_not_None _); reflexivity.
Qed.

Lemma schema_names_set_witness :
  let attrs : namespace :=
    [("__annotations__", AAnnotations [("title", HPrim Pstr)]);
     ("age", AField (new_field IntField));
     ("Meta", AMeta (mkMeta (Some (AliasDict [("title", "t")])) None None None))] in
  exists cls t,
    run (define_class "Post" [] [] attrs) = (Ok cls, t) /\
    map (fun kf => name (snd kf)) (schema_fields (cls_dict cls))
      = [Some "age"; Some "t"] /\
    forall k f, In (k, f) (schema_fields (cls_dict cls)) ->
                exists n, name f = Some n /\ n <> "".
Proof.
  intros attrs. eexists. eexists. split; [reflexivity|].
  split; [reflexivity|].
  apply (@schema_names_set "Post" [] [] attrs _ _ eq_refl eq_refl).
  repeat constructor; simpl; try discriminate.
  - intros nm Hnm ->. discriminate.
  - intros x [<-|[]]. discriminate.
Defined.

(** ** Iteration over an instance *)

Section Iteration.
Variable Field___get__ : Field -> instance -> result pyval.

(** [key] is a field of the instance's class and its [__get__] returns
    [v]. *)
Definition field_value (self : instance) (key : string) (v : pyval) : Prop :=
  exists f, class_lookup (inst_class self) key = Some (AField f) /\
            Field___get__ f self = Ok v.

Lemma getattr_field (self : instance) (key : string) (v : pyval) :
  field_value self key v -> getattr Field___get__ self key = Ok v.
Proof.
  intros [f [Hf Hv]]. unfold getattr. now rewrite Hf.
Qed.

Lemma yield_each_fields (self : instance) (ks : list string) :
  (forall key, In key ks -> exists v, field_value self key v) ->
  exists vs, yield_each Field___get__ self ks = (vs, None) /\
             Forall2 (field_value self) ks vs.
Proof.
  induction ks as [|key ks IH]; intros Hall.
  - exists []. split; [reflexivity | constructor].
  - destruct (Hall key (or_introl eq_refl)) as [v Hv].
    destruct IH as [vs [Hvs HF]]; [intros k Hk; apply Hall; now right|].
    exists (v :: vs). split; [|now constructor].
    simpl. rewrite (getattr_field Hv), Hvs. reflexivity.
Qed.
(** The generator yields the values of the first [n] keys, looked up in
    order; it ends after the last key, or with the exception the lookup
    of the next key raises. *)
Lemma yield_each_prefix (self : instance) (ks : list string) :
  exists vs e n,
    yield_each Field___get__ self ks = (vs, e) /\
    Forall2 (fun key v => getattr Field___get__ self key = Ok v)
            (firstn n ks) vs /\
    match e with
    | None => n = List.length ks
    | Some ex => exists key, nth_error ks n = Some key /\
                             getattr Field___get__ self key = Raise ex
    end.
Proof.
  induction ks as [|key ks IH].
  - exists [], None, 0. repeat split. constructor.
  - destruct IH as (vs & e & n & Hrun & HF & Hend). simpl.
    destruct (getattr Field___get__ self key) as [v|ex] eqn:Hget.
    + exists (v :: vs), e, (S n). rewrite Hrun. split; [reflexivity|].
      split; [simpl; now constructor|].
      destruct e as [ex|]; [exact Hend | now rewrite Hend].
    + exists [], (Some ex), 0. split; [reflexivity|].
      split; [constructor|]. exists key. now split.
Qed.
End Iteration.

(** C4, as the code has it.  Iterating over an instance looks up, with
    [getattr], the keys of the stored mapping [_data] in the order of
    that mapping, and yields what the lookups return up to the first
    key whose lookup raises, which ends the iteration with that
    exception; with no such key it yields one value per key.  So it
    does for an instance whose stored keys are fields of its class
    whose [__get__] returns; and with the attribute access of fields,
    an embedded sub-mapping is yielded as a typed sub-instance of the
    embedded model. *)
Theorem iter_model_data_order
    (Field___get__ : Field -> instance -> result pyval) (self : instance) :
  (exists vs e n,
     _iter_model Field___get__ self = (vs, e) /\
     Forall2 (fun key v => getattr Field___get__ self key = Ok v)
             (firstn n (dict_keys (_data self))) vs /\
     match e with
     | None => n = List.length (dict_keys (_data self))
     | Some ex =>
         exists key, nth_error (dict_keys (_data self)) n = Some key /\
                     getattr Field___get__ self key = Raise ex
     end) /\
  ((forall key, In key (dict_keys (_data self)) ->
                exists v, field_value Field___get__ self key v) ->
   exists vs,
     _iter_model Field___get__ self = (vs, None) /\
     Forall2 (field_value Field___get__ self) (dict_keys (_data self)) vs) /\
  (forall key f model sub,
     class_lookup (inst_class self) key = Some (AField f) ->
     kind f = EmbeddedField model -> name f = Some key ->
     dict_get (_data self) key = Some (VDict sub) ->
     getattr Field_get_spec self key = Ok (VInstance model sub)).
Proof.
  split; [|split].
  - unfold _iter_model. apply yield_each_prefix.
  - intros Hall. unfold _iter_model. now apply yield_each_fields.
  - intros key f model sub Hf Hk Hn Hget.
    unfold getattr. rewrite Hf. unfold Field_get_spec.
    now rewrite Hn, Hget, Hk.
Qed.

(** A record type with two integer attributes [a] and [b], and a
    document whose keys come in the other order. *)
Definition two_ints_body : namespace :=
  [("__annotations__", AAnnotations [("a", HPrim Pint); ("b", HPrim Pint)])].

Definition two_ints : class :=
  match fst (run (define_class "Pair" [] [] two_ints_body)) with
  | Ok cls => cls
  | Raise _ => mkClass "Pair" [] [] []
  end.

Definition b_then_a : instance :=
  match fst (run (from_data_unchanged (fun _ d => Ok d) (fun _ _ => Ok tt)
                    two_ints [("b", VInt 2); ("a", VInt 1)])) with
  | Ok obj => obj
  | Raise _ => mkInstance two_ints []
  end.

Lemma iter_model_not_schema_order :
  field_order_of (cls_dict two_ints) = ["a"; "b"] /\
  _iter_model Field_get_spec b_then_a = ([VInt 2; VInt 1], None) /\
  yield_each Field_get_spec b_then_a (field_order_of (cls_dict two_ints))
    = ([VInt 1; VInt 2], None) /\
  ~ (forall get self,
       _iter_model get self =
       yield_each get self (field_order_of (cls_dict (inst_class self)))).
Proof.
  split; [reflexivity|]. split; [reflexivity|]. split; [reflexivity|].
  intros Hall. specialize (Hall Field_get_spec b_then_a). discriminate.
Qed.

Lemma iter_model_data_order_witness :
  exists vs,
    _iter_model Field_get_spec b_then_a = (vs, None) /\
    Forall2 (field_value Field_get_spec b_then_a) ["b"; "a"] vs.
Proof.
  apply (proj1 (proj2 (@iter_model_data_order Field_get_spec b_then_a))).
  intros key [<-|[<-|[]]].
  - exists (VInt 2). eexists. split; reflexivity.
  - exists (VInt 1). eexists. split; reflexivity.
Defined.

(** ** The persistence guard *)

Lemma mutate_provenance (r : Persistence.record)
    (writes : list (string * pyval)) :
  Persistence.rec_provenance (Persistence.mutate r writes)
  = Persistence.rec_provenance r.
Proof.
  unfold Persistence.mutate. revert r.
  induction writes as [|w writes IH]; intros r; simpl; [reflexivity|].
  now rewrite IH.
Qed.

Lemma mutate_writes (r : Persistence.record) (writes : list (string * pyval))
    (k : string) (v : pyval) :
  dict_get (_data (Persistence.rec_instance
                     (Persistence.mutate r (writes ++ [(k, v)])))) k = Some v.
Proof.
  unfold Persistence.mutate. rewrite fold_left_app. simpl.
  rewrite dict_get_set, String.eqb_refl. reflexivity.
Qed.

(** C8.  The materializing factory returns a record, and whatever
    attributes are then written on it, every [save] of it raises
    [RuntimeError]; the writes themselves do reach [_data]. *)
Theorem materialized_never_saves
    (root_convert : class -> dict pyval -> result (dict pyval))
    (root_validate : class -> dict pyval -> result unit)
    (cls : class) (data : dict pyval) :
  exists r,
    run (Persistence.materialize root_convert root_validate cls data)
      = (Ok r, []) /\
    to_dict (Persistence.rec_instance r) = data /\
    (forall writes,
       Persistence.save (Persistence.mutate r writes)
       = Raise (RuntimeError Persistence.read_only_message)) /\
    (forall writes k v,
       dict_get (to_dict (Persistence.rec_instance
                            (Persistence.mutate r (writes ++ [(k, v)])))) k
       = Some v).
Proof.
  exists (Persistence.mkRecord (mkInstance cls data)
                               Persistence.MaterializedFromQuery).
  split; [reflexivity|]. split; [reflexivity|]. split.
  - intros writes. unfold Persistence.save.
    now rewrite mutate_provenance.
  - intros writes k v. apply mutate_writes.
Qed.

(** A constructed record, by contrast, is saved. *)
Lemma constructed_saves
    (root_convert : class -> dict pyval -> result (dict pyval))
    (root_validate : class -> dict pyval -> result unit)
    (cls : class) (kw : dict pyval) (r : Persistence.record)
    (t : list event) (writes : list (string * pyval)) :
  run (Persistence.construct root_convert root_validate cls kw) = (Ok r, t) ->
  exists doc, Persistence.save (Persistence.mutate r writes) = Ok doc.
Proof.
  intros Hrun. unfold Persistence.save. rewrite mutate_provenance.
  unfold run, Persistence.construct, bind, ret in Hrun.
  destruct (BaseModel___init__ _ _ _ _ _ _ _) as [[obj|e] t1];
    [|discriminate].
  injection Hrun as <- <-. simpl. eauto.
Qed.

(** ** Index reconciliation *)

Import IndexReconciler.

Lemma ttl_eqb_eq (a b : option Z) : ttl_eqb a b = true <-> a = b.
Proof.
  destruct a as [x|], b as [y|]; simpl; try (split; congruence).
  rewrite Z.eqb_eq. split; congruence.
Qed.

Lemma in_stale_drops (declared : list index) (existing : metadata)
    (nm : string) :
  In (DropIndex nm) (stale_drops declared existing) <->
  In nm (dict_keys existing) /\ ~ In nm (declared_names declared).
Proof.
  unfold stale_drops. rewrite in_map_iff. split.
  - intros [x [[= ->] Hin]]. apply filter_In in Hin. destruct Hin as [Hin Hn].
    split; [exact Hin|]. intros Hd. apply str_in_In in Hd.
    rewrite Hd in Hn. discriminate.
  - intros [Hin Hn]. exists nm. split; [reflexivity|].
    apply filter_In. split; [exact Hin|].
    destruct (str_in nm (declared_names declared)) eqn:E; [|reflexivity].
    apply str_in_In in E. contradiction.
Qed.

Lemma stale_drops_only_drop (declared : list index) (existing : metadata)
    (i : index) :
  ~ In (CreateIndex i) (stale_drops declared existing).
Proof.
  unfold stale_drops. rewrite in_map_iff. intros [x [Hx _]]. discriminate.
Qed.

Lemma unique_declared (declared : list index) (i j : index) :
  NoDup (declared_names declared) ->
  In i declared -> In j declared -> idx_name i = idx_name j -> i = j.
Proof.
  unfold declared_names.
  induction declared as [|x l IH]; simpl; intros Hnd Hi Hj Heq; [contradiction|].
  inversion Hnd as [|y l' Hnotin Hnd']. subst y l'.
  destruct Hi as [->|Hi], Hj as [->|Hj].
  - reflexivity.
  - exfalso. apply Hnotin. rewrite Heq. now apply in_map.
  - exfalso. apply Hnotin. rewrite <- Heq. now apply in_map.
  - now apply IH.
Qed.

(** C9.  Reconciliation of the declared indexes against the existing
    metadata: an existing index whose name is not declared is dropped;
    a declared index absent from the metadata is created, with its key
    and options; a declared index present with another TTL is dropped
    and, right after, created anew; a declared index present with the
    same key and options is neither dropped nor created (the declared
    names being distinct). *)
Theorem reconcile_behaviour (declared : list index) (existing : metadata) :
  (forall nm, In nm (dict_keys existing) ->
              ~ In nm (declared_names declared) ->
              In (DropIndex nm) (reconcile declared existing)) /\
  (forall i, In i declared -> dict_get existing (idx_name i) = None ->
             In (CreateIndex i) (reconcile declared existing)) /\
  (forall i old,
     In i declared -> dict_get existing (idx_name i) = Some old ->
     expire_after_seconds (idx_options old)
       <> expire_after_seconds (idx_options i) ->
     exists before after,
       reconcile declared existing =
       before ++ DropIndex (idx_name i) :: CreateIndex i :: after) /\
  (unique_keys (declared_names declared) = true ->
   forall i old,
     In i declared -> dict_get existing (idx_name i) = Some old ->
     idx_key old = idx_key i -> idx_options old = idx_options i ->
     ~ In (DropIndex (idx_name i)) (reconcile declared existing) /\
     forall j, In (CreateIndex j) (reconcile declared existing) ->
               idx_name j <> idx_name i).
Proof.
  unfold reconcile. split; [|split; [|split]].
  - intros nm Hin Hn. apply in_or_app. left. now apply in_stale_drops.
  - intros i Hi Habs. apply in_or_app. right. apply in_flat_map.
    exists i. split; [exact Hi|]. unfold converge_one. rewrite Habs. now left.
  - intros i old Hi Hold Hdiff.
    destruct (in_split _ _ Hi) as [l1 [l2 ->]].
    exists (stale_drops (l1 ++ i :: l2) existing
            ++ flat_map (converge_one existing) l1),
           (flat_map (converge_one existing) l2).
    rewrite flat_map_app. simpl.
    unfold converge_one at 2. rewrite Hold.
    destruct (ttl_eqb _ _) eqn:E; [apply ttl_eqb_eq in E; contradiction|].
    simpl. now rewrite <- app_assoc.
  - intros Huniq i old Hi Hold Hkey Hopt.
    apply unique_keys_NoDup in Huniq.
    assert (Hnone : converge_one existing i = []).
    { unfold converge_one. rewrite Hold, Hopt.
      destruct (ttl_eqb _ _) eqn:E; [reflexivity|].
      assert (E' : ttl_eqb (expire_after_seconds (idx_options i))
                     (expire_after_seconds (idx_options i)) = true)
        by now apply ttl_eqb_eq.
      congruence. }
    split.
    + intros Hin. apply in_app_or in Hin. destruct Hin as [Hin|Hin].
      * apply in_stale_drops in Hin. destruct Hin as [_ Hn].
        apply Hn. unfold declared_names. now apply in_map.
      * apply in_flat_map in Hin. destruct Hin as [j [Hj Hin]].
        assert (Hname : idx_name j = idx_name i).
        { unfold converge_one in Hin.
          destruct (dict_get existing (idx_name j)).
          - destruct (ttl_eqb _ _); [contradiction|].
            destruct Hin as [Hin|[Hin|[]]]; congruence.
          - destruct Hin as [Hin|[]]. discriminate. }
        rewrite (@unique_declared declared j i Huniq Hj Hi Hname), Hnone in Hin.
        contradiction.
    + intros j Hin Hname. apply in_app_or in Hin. destruct Hin as [Hin|Hin].
      * now apply stale_drops_only_drop in Hin.
      * apply in_flat_map in Hin. destruct Hin as [j' [Hj' Hin]].
        assert (Hjj : j' = j).
        { unfold converge_one in Hin.
          destruct (dict_get existing (idx_name j')).
          - destruct (ttl_eqb _ _); [contradiction|].
            destruct Hin as [Hin|[Hin|[]]]; congruence.
          - destruct Hin as [Hin|[]]. congruence. }
        subst j'.
        rewrite (@unique_declared declared j i Huniq Hj' Hi Hname), Hnone in Hin.
        contradiction.
Qed.

(** The two reconciliations the specification works out: existing
    [a_1] against declared [b]; existing [expires_at_1] with a TTL of
    2400 against the same index declared with 3600. *)
Definition no_options : options := mkOptions false false None.
Definition ttl (seconds : Z) : options := mkOptions false false (Some seconds).

Lemma reconcile_behaviour_witness :
  let a := normalize None [("a", Ascending)] no_options in
  let b := normalize None [("b", Ascending)] no_options in
  let old := normalize None [("expires_at", Ascending)] (ttl 2400) in
  let new := normalize None [("expires_at", Ascending)] (ttl 3600) in
  reconcile [b] [("a_1", a)] = [DropIndex "a_1"; CreateIndex b] /\
  In (DropIndex "a_1") (reconcile [b] [("a_1", a)]) /\
  In (CreateIndex b) (reconcile [b] [("a_1", a)]) /\
  (exists before after,
     reconcile [new] [("expires_at_1", old)] =
     before ++ DropIndex "expires_at_1" :: CreateIndex new :: after) /\
  apply_ops [("expires_at_1", old)] (reconcile [new] [("expires_at_1", old)])
    = [("expires_at_1", new)] /\
  ~ In (DropIndex "b_1") (reconcile [b] [("b_1", b)]).
Proof.
  intros a b old new.
  destruct (reconcile_behaviour [b] [("a_1", a)]) as (Hdrop & Hcreate & _ & _).
  destruct (reconcile_behaviour [new] [("expires_at_1", old)])
    as (_ & _ & Httl & _).
  destruct (reconcile_behaviour [b] [("b_1", b)]) as (_ & _ & _ & Hsame).
  split; [reflexivity|]. split.
  { apply Hdrop; [now left|]. simpl. intros [H|[]]. discriminate. }
  split.
  { apply Hcreate; [now left | reflexivity]. }
  split.
  { apply (Httl new old); [now left | reflexivity | discriminate]. }
  split; [reflexivity|].
  apply (Hsame eq_refl b b); try reflexivity. now left.
Defined.

(** * Further properties of [monorm/model.py] *)

(** ** How [clean] ends *)

Section CleanOutcome.
Variable root_convert : class -> dict pyval -> result (dict pyval).
Variable root_validate : class -> dict pyval -> result unit.

(** What the conversion phase hands on: the input when bypassed, else
    what [convert] returns. *)
Definition conversion_phase (cls : class) (data : dict pyval)
    (bypass_conversion : bool) : result (dict pyval) :=
  if bypass_conversion then Ok data else root_convert cls data.

Lemma clean_run (cls : class) (data : dict pyval) (bc bv : bool) :
  fst (run (clean root_convert root_validate cls data bc bv)) =
  match conversion_phase cls data bc with
  | Ok d => if bv then Ok d
            else match root_validate cls d with
                 | Ok _ => Ok d
                 | Raise e => Raise e
                 end
  | Raise e => Raise e
  end.
Proof.
  unfold run, clean, conversion_phase, bind, emit, lift, ret.
  destruct bc, bv; simpl.
  - reflexivity.
  - destruct (root_validate cls data); reflexivity.
  - destruct (root_convert cls data); reflexivity.
  - destruct (root_convert cls data) as [d|e]; simpl; [|reflexivity].
    destruct (root_validate cls d); reflexivity.
Qed.

(** When [clean] returns a mapping, it is the very input if conversion
    was bypassed and the mapping [convert] returned otherwise, and
    [validate], unless bypassed, accepted that mapping: validation
    never changes what is returned. *)
Theorem clean_returns (cls : class) (data d : dict pyval) (bc bv : bool)
    (t : list event) :
  run (clean root_convert root_validate cls data bc bv) = (Ok d, t) ->
  conversion_phase cls data bc = Ok d /\
  (bc = true -> d = data) /\
  (bv = false -> root_validate cls d = Ok tt).
Proof.
  intros Hrun.
  assert (H : fst (run (clean root_convert root_validate cls data bc bv)) = Ok d)
    by (rewrite Hrun; reflexivity).
  rewrite clean_run in H.
  destruct (conversion_phase cls data bc) as [d0|e] eqn:Hc; [|discriminate].
  assert (Hd : d0 = d /\ (bv = false -> root_validate cls d0 = Ok tt)).
  { destruct bv.
    - injection H as <-. split; [reflexivity | discriminate].
    - destruct (root_validate cls d0) as [[]|e] eqn:Hv; [|discriminate].
      injection H as <-. split; [reflexivity | intros _; reflexivity]. }
  destruct Hd as [<- Hv]. split; [reflexivity|]. split; [|exact Hv].
  intros ->. unfold conversion_phase in Hc. congruence.
Qed.

(** When [clean] raises, the exception is the one [convert] raised, and
    then [validate] has not been called whatever [bypass_validation]
    is, or it is the one [validate] raised on the mapping the conversion
    phase handed on. *)
Theorem clean_raises (cls : class) (data : dict pyval) (bc bv : bool)
    (e : exn) (t : list event) :
  run (clean root_convert root_validate cls data bc bv) = (Raise e, t) ->
  (bc = false /\ root_convert cls data = Raise e /\
   t = [Converted (cls_name cls) data]) \/
  (bv = false /\
   exists d, conversion_phase cls data bc = Ok d /\
             root_validate cls d = Raise e /\
             In (Validated (cls_name cls) d) t).
Proof.
  intros Hrun.
  pose proof (clean_trace root_convert root_validate cls data bc bv) as Ht.
  pose proof (clean_run cls data bc bv) as Hr.
  rewrite Hrun in Ht, Hr. simpl in Ht, Hr. unfold conversion_phase in *.
  destruct bc.
  - right. destruct bv; [discriminate|].
    destruct (root_validate cls data) as [u|e0] eqn:Hv; [discriminate|].
    injection Hr as ->. split; [reflexivity|].
    exists data. repeat split; auto. subst t. now left.
  - destruct (root_convert cls data) as [d|e0] eqn:Hc.
    + right. destruct bv; [discriminate|].
      destruct (root_validate cls d) as [u|e1] eqn:Hv; [discriminate|].
      injection Hr as ->. split; [reflexivity|].
      exists d. repeat split; auto. subst t. right. now left.
    + left. injection Hr as ->. repeat split. subst t. reflexivity.
Qed.

End CleanOutcome.

Lemma clean_returns_witness :
  let conv := fun (_ : class) (d : dict pyval) => Ok (dict_set d "n" (VInt 1)) in
  let val := fun (_ : class) (_ : dict pyval) => Ok tt in
  let cls := mkClass "Post" [] [] [] in
  conversion_phase conv cls [("n", VStr "1")] false = Ok [("n", VInt 1)] /\
  val cls [("n", VInt 1)] = Ok tt.
Proof.
  intros conv val cls.
  destruct (@clean_returns conv val cls [("n", VStr "1")] [("n", VInt 1)]
              false false _ eq_refl) as (Hc & _ & Hv).
  split; [exact Hc | exact (Hv eq_refl)].
Defined.

Lemma clean_raises_witness :
  let conv := fun (_ : class) (_ : dict pyval) =>
                @Raise (dict pyval) (ConversionError "n") in
  let val := fun (_ : class) (_ : dict pyval) => Ok tt in
  let cls := mkClass "Post" [] [] [] in
  (false = false /\ conv cls [("n", VStr "x")] = Raise (ConversionError "n") /\
   [Converted "Post" [("n", VStr "x")]] = [Converted (cls_name cls) [("n", VStr "x")]]) \/
  (false = false /\
   exists d, conversion_phase conv cls [("n", VStr "x")] false = Ok d /\
             val cls d = Raise (ConversionError "n") /\
             In (Validated (cls_name cls) d) [Converted "Post" [("n", VStr "x")]]).
Proof.
  intros conv val cls.
  exact (@clean_raises conv val cls [("n", VStr "x")] false false
           (ConversionError "n") _ eq_refl).
Defined.

(** ** Where iteration ends *)

Section IterationEnd.
Variable Field___get__ : Field -> instance -> result pyval.

Lemma yield_each_app (self : instance) (ks1 ks2 : list string) :
  yield_each Field___get__ self (ks1 ++ ks2) =
  match yield_each Field___get__ self ks1 with
  | (vs, None) =>
      let '(ws, e) := yield_each Field___get__ self ks2 in (vs ++ ws, e)
  | (vs, Some e) => (vs, Some e)
  end.
Proof.
  induction ks1 as [|k ks1 IH]; simpl.
  - destruct (yield_each Field___get__ self ks2); reflexivity.
  - destruct (getattr Field___get__ self k) as [v|e]; [|reflexivity].
    rewrite IH.
    destruct (yield_each Field___get__ self ks1) as [vs [e|]]; [reflexivity|].
    destruct (yield_each Field___get__ self ks2); reflexivity.
Qed.

(** A stored key that is no attribute of the instance ends the
    iteration with [AttributeError], after the values of the keys
    before it; the keys after it are never looked up. *)
Theorem iter_model_stops_at_unknown_key (self : instance)
    (before after : list string) (key : string) :
  dict_keys (_data self) = before ++ key :: after ->
  (forall k, In k before -> exists v, field_value Field___get__ self k v) ->
  class_lookup (inst_class self) key = None ->
  String.eqb key "_data" = false ->
  exists vs,
    _iter_model Field___get__ self = (vs, Some (AttributeError key)) /\
    Forall2 (field_value Field___get__ self) before vs.
Proof.
  intros Hkeys Hbefore Hlookup Hkey.
  destruct (@yield_each_fields Field___get__ self before Hbefore)
    as [vs [Hvs HF]].
  exists vs. split; [|exact HF].
  unfold _iter_model. rewrite Hkeys, yield_each_app, Hvs. simpl.
  unfold getattr. rewrite Hlookup, Hkey. now rewrite app_nil_r.
Qed.

(** Iteration yields at most one value per stored key: as many as there
    are keys when it ends normally, fewer when an exception ends it. *)
Theorem iter_model_count (self : instance) :
  let '(vs, e) := _iter_model Field___get__ self in
  match e with
  | None => List.length vs = List.length (dict_keys (_data self))
  | Some _ => List.length vs < List.length (dict_keys (_data self))
  end.
Proof.
  unfold _iter_model.
  induction (dict_keys (_data self)) as [|k ks IH]; simpl; [reflexivity|].
  destruct (getattr Field___get__ self k) as [v|e]; simpl.
  - destruct (yield_each Field___get__ self ks) as [vs [e|]]; simpl.
    + now apply PeanoNat.Nat.succ_lt_mono in IH.
    + now rewrite IH.
  - apply PeanoNat.Nat.lt_0_succ.
Qed.
End IterationEnd.

Lemma iter_model_stops_at_unknown_key_witness :
  let self := mkInstance two_ints [("a", VInt 1); ("views", VInt 7); ("b", VInt 2)] in
  exists vs,
    _iter_model Field_get_spec self = (vs, Some (AttributeError "views")) /\
    Forall2 (field_value Field_get_spec self) ["a"] vs.
Proof.
  intros self.
  apply (@iter_model_stops_at_unknown_key Field_get_spec self ["a"] ["b"] "views");
    try reflexivity.
  intros k [<-|[]]. exists (VInt 1). eexists. split; reflexivity.
Defined.

(** ** Nested list hints *)

(** [List[List[...[h]]]], [n] levels deep, and the array field [n]
    levels deep over a field. *)
Fixpoint list_of (n : nat) (h : hint) : hint :=
  match n with
  | O => h
  | S n' => HGeneric OriginList (list_of n' h) []
  end.

Fixpoint array_of (n : nat) (f : Field) : Field :=
  match n with
  | O => f
  | S n' => new_field (ArrayField (array_of n' f))
  end.

Lemma list_of_not_tilde_T (n : nat) (h : hint) :
  str_is_tilde_T h = false -> str_is_tilde_T (list_of n h) = false.
Proof. destruct n; [auto | reflexivity]. Qed.

(** A list hint nested [n] deep over an element hint gives the array
    field nested [n] deep over the element's field, and raises at any
    depth exactly when the element hint has no field. *)
Theorem hint_to_field_nested (n : nat) (h : hint) :
  str_is_tilde_T h = false ->
  _hint_to_field (list_of n h) =
  match _hint_to_field h with
  | Ok f => Ok (array_of n f)
  | Raise e => Raise e
  end.
Proof.
  intros Hh. induction n as [|n IH]; simpl.
  - destruct (_hint_to_field h); reflexivity.
  - rewrite (list_of_not_tilde_T n h Hh), IH.
    destruct (_hint_to_field h); reflexivity.
Qed.

Lemma hint_to_field_nested_witness :
  _hint_to_field (list_of 3 (HClass "User" true))
    = Ok (array_of 3 (new_field (EmbeddedField "User"))) /\
  _hint_to_field (list_of 2 (HClass "Decimal" false))
    = Raise (TypeError cannot_convert).
Proof.
  split.
  - exact (@hint_to_field_nested 3 (HClass "User" true) eq_refl).
  - exact (@hint_to_field_nested 2 (HClass "Decimal" false) eq_refl).
Defined.

(** ** Traces and outcomes of a class definition *)

Lemma parse_loop_trace (ann : dict hint) (types : dict hint) :
  forall st t, snd (for_each (parse_hint_step ann) types st t) = t.
Proof.
  intros [d o] t.
  destruct (for_each (parse_hint_step ann) types (d, o) t)
    as [[[d' o']|e] t'] eqn:H; simpl.
  - now apply parse_loop_order in H.
  - now apply parse_loop_raise in H.
Qed.

Lemma parse_annotated_from (ann : dict hint) (cls : class) (t : list event) :
  parse_annotated ann cls t =
  match get_type_hints cls with
  | Ok types =>
      let o := field_order_of (cls_dict cls) in
      let t1 := if negb (Nat.eqb (List.length o) 0)
                then t ++ [Warned mixing_warning] else t in
      match for_each (parse_hint_step ann) types (cls_dict cls, o) t1 with
      | (Ok st, t') => (Ok (with_dict cls (fst st)), t')
      | (Raise e, t') => (Raise e, t')
      end
  | Raise e => (Raise e, t)
  end.
Proof.
  unfold parse_annotated, bind, lift, emit, ret.
  destruct (get_type_hints cls) as [types|e]; [|reflexivity].
  destruct (negb (Nat.eqb (List.length (field_order_of (cls_dict cls))) 0));
    simpl; destruct (for_each _ _ _ _) as [[st|e] t']; reflexivity.
Qed.

Lemma process_meta_from (cls : class) (t : list event) :
  _process_meta cls t =
  match find (fun n => negb (is_field (cls_dict cls) n))
             (override_names (meta_of (cls_dict cls))) with
  | Some n => (Raise (ValueError n), t)
  | None =>
      (Ok (with_dict cls
             (apply_validators (meta_validators (meta_of (cls_dict cls)))
                (apply_converters (meta_converters (meta_of (cls_dict cls)))
                   (apply_required (meta_required_names (meta_of (cls_dict cls)))
                      (apply_aliases (meta_aliases (meta_of (cls_dict cls)))
                         (cls_dict cls)))))), t)
  end.
Proof.
  unfold _process_meta, bind. rewrite process_meta_dict_from.
  destruct (find _ _); reflexivity.
Qed.

(** The annotations of the class body, evaluated: the objects they
    evaluate to, or the [NameError] of the name that cannot be found;
    [None] without annotations. *)
Definition annotations_of (attrs : namespace) : option (result (dict hint)) :=
  match dict_get attrs "__annotations__" with
  | Some (AAnnotations ann) => Some (Ok ann)
  | Some (AUnresolvedAnnotations ref) => Some (Raise (NameError ref))
  | _ => None
  end.

Lemma annotations_of_evaluated (attrs : namespace) (ann : dict hint) :
  annotations_of attrs = Some (Ok ann) ->
  dict_get attrs "__annotations__" = Some (AAnnotations ann).
Proof.
  unfold annotations_of.
  destruct (dict_get attrs "__annotations__") as [[| | |a| |ref]|];
    try discriminate.
  now intros [= ->].
Qed.

(** The class body mixes the two styles: it is parsed, it has
    annotations and it has explicit [Field] objects. *)
Definition mixes_styles (attrs : namespace) : bool :=
  negb (dict_mem attrs "_no_parse_hints") &&
  match annotations_of attrs with Some _ => true | None => false end &&
  negb (Nat.eqb (List.length (explicit_fields attrs)) 0).

(** [get_type_hints(cls)] returns. *)
Definition hints_evaluate (cls : class) : bool :=
  match get_type_hints cls with
  | Ok _ => true
  | Raise _ => false
  end.

Lemma new_class_field_order (cname : string) (bh : dict hint)
    (ba attrs : namespace) :
  dict_mem attrs "_no_parse_hints" = false ->
  field_order_of (cls_dict (ModelType___new__ cname bh ba attrs))
  = explicit_fields attrs.
Proof.
  intros Hno. unfold field_order_of. now rewrite new_class_get by exact Hno.
Qed.

Lemma new_class_parsed (cname : string) (bh : dict hint)
    (ba attrs : namespace) :
  dict_mem attrs "_no_parse_hints" = false ->
  dict_mem (cls_dict (ModelType___new__ cname bh ba attrs)) "_no_parse_hints"
  = false.
Proof.
  intros Hno. unfold dict_mem. rewrite new_class_get by exact Hno. simpl.
  unfold dict_mem in Hno.
  destruct (dict_get attrs "_no_parse_hints"); [discriminate | reflexivity].
Qed.

Lemma define_class_parsed (cname : string) (bh : dict hint)
    (ba attrs : namespace) (t : list event) :
  dict_mem attrs "_no_parse_hints" = false ->
  define_class cname bh ba attrs t =
  match _parse_type_hints (ModelType___new__ cname bh ba attrs) t with
  | (Ok cls1, t1) => _process_meta cls1 t1
  | (Raise e, t1) => (Raise e, t1)
  end.
Proof.
  intros Hno. unfold define_class, ModelType___init__.
  now rewrite (new_class_parsed cname bh ba attrs Hno).
Qed.

(** [_parse_type_hints] on a new class, by the annotations of the body. *)
Lemma new_class_parse_hints (cname : string) (bh : dict hint)
    (ba attrs : namespace) (t : list event) :
  dict_mem attrs "_no_parse_hints" = false ->
  _parse_type_hints (ModelType___new__ cname bh ba attrs) t =
  match annotations_of attrs with
  | Some (Ok ann) => parse_annotated ann (ModelType___new__ cname bh ba attrs) t
  | Some (Raise _) => parse_annotated [] (ModelType___new__ cname bh ba attrs) t
  | None => (Ok (ModelType___new__ cname bh ba attrs), t)
  end.
Proof.
  intros Hno. unfold _parse_type_hints, annotations_of.
  rewrite new_class_get by exact Hno. simpl.
  destruct (dict_get attrs "__annotations__") as [[f| | | | |]|]; reflexivity.
Qed.

(** [_parse_type_hints] on a new class whose annotations evaluate and
    which is not under [__no_type_check__]. *)
Lemma new_class_parse_evaluated (cname : string) (bh : dict hint)
    (ba attrs : namespace) (ann : dict hint) (t : list event) :
  dict_mem attrs "_no_parse_hints" = false ->
  no_type_check (ModelType___new__ cname bh ba attrs) = false ->
  annotations_of attrs = Some (Ok ann) ->
  _parse_type_hints (ModelType___new__ cname bh ba attrs) t =
  let t1 := if negb (Nat.eqb (List.length (explicit_fields attrs)) 0)
            then t ++ [Warned mixing_warning] else t in
  match for_each (parse_hint_step ann) (dict_update bh ann)
                 (cls_dict (ModelType___new__ cname bh ba attrs),
                  explicit_fields attrs) t1 with
  | (Ok st, t') => (Ok (with_dict (ModelType___new__ cname bh ba attrs) (fst st)), t')
  | (Raise e, t') => (Raise e, t')
  end.
Proof.
  intros Hno Hntc Hann.
  rewrite new_class_parse_hints by exact Hno. rewrite Hann.
  rewrite parse_annotated_from.
  rewrite (@new_class_type_hints cname bh ba attrs ann Hno Hntc
             (annotations_of_evaluated attrs Hann)).
  now rewrite (new_class_field_order cname bh ba attrs Hno).
Qed.

(** The definition of a class warns exactly when its body mixes explicit
    [Field] objects with annotations and [get_type_hints] returns on
    the class, which it does before the warning; it warns once, and
    this whether the definition then succeeds or raises; nothing else
    is ever emitted. *)
Theorem warning_iff_mixed (cname : string) (bh : dict hint)
    (ba attrs : namespace) :
  snd (run (define_class cname bh ba attrs)) =
  if mixes_styles attrs &&
     hints_evaluate (ModelType___new__ cname bh ba attrs)
  then [Warned mixing_warning] else [].
Proof.
  unfold mixes_styles, run.
  destruct (dict_mem attrs "_no_parse_hints") eqn:Hno; simpl.
  - unfold define_class, ModelType___init__, ModelType___new__.
    rewrite Hno. simpl. rewrite Hno. reflexivity.
  - rewrite define_class_parsed by exact Hno.
    rewrite new_class_parse_hints by exact Hno.
    assert (Hann : forall ann,
      snd (match parse_annotated ann (ModelType___new__ cname bh ba attrs) []
           with
           | (Ok cls1, t1) => _process_meta cls1 t1
           | (Raise e, t1) => (Raise e, t1)
           end)
      = if negb (Nat.eqb (List.length (explicit_fields attrs)) 0) &&
           hints_evaluate (ModelType___new__ cname bh ba attrs)
        then [Warned mixing_warning] else []).
    { intros ann. rewrite parse_annotated_from. unfold hints_evaluate.
      destruct (get_type_hints (ModelType___new__ cname bh ba attrs))
        as [types|e0].
      - cbv zeta. rewrite (new_class_field_order cname bh ba attrs Hno).
        set (t1 := if negb (Nat.eqb (List.length (explicit_fields attrs)) 0)
                   then [] ++ [Warned mixing_warning] else []).
        pose proof (parse_loop_trace ann types
                      (cls_dict (ModelType___new__ cname bh ba attrs),
                       explicit_fields attrs) t1) as Htr.
        destruct (for_each _ _ _ _) as [[st|e] t'] in *; simpl in Htr;
          subst t'.
        + rewrite process_meta_from. unfold t1.
          destruct (find _ _); destruct (negb _); reflexivity.
        + unfold t1. destruct (negb _); reflexivity.
      - now rewrite andb_false_r. }
    destruct (annotations_of attrs) as [[ann|e]|].
    + apply Hann.
    + apply Hann.
    + rewrite process_meta_from. destruct (find _ _); reflexivity.
Qed.

Lemma parse_loop_unmappable (ann : dict hint) (types : dict hint) :
  hints_mappable ann types = false ->
  forall st t,
    for_each (parse_hint_step ann) types st t
    = (Raise (TypeError cannot_convert), t).
Proof.
  unfold hints_mappable.
  induction types as [|[nm h] types IH]; intros Hm [d o] t; simpl in Hm;
    [discriminate|].
  rewrite for_each_cons.
  destruct (dict_mem ann nm) eqn:Hown; simpl in Hm.
  - rewrite parse_step_own by exact Hown.
    destruct (_hint_to_field h) as [f|e] eqn:Hh.
    + cbv zeta. now apply IH.
    + now rewrite (proj2 (proj2 (hint_to_field_cases h)) e Hh).
  - rewrite parse_step_skip by exact Hown. now apply IH.
Qed.

Lemma hints_mappable_false (ann types : dict hint) :
  hints_mappable ann types = false <->
  exists nm h, In (nm, h) types /\ dict_mem ann nm = true /\
               ~ exists f, table h f.
Proof.
  split.
  - unfold hints_mappable.
    induction types as [|[nm h] types IH]; simpl; [discriminate|].
    intros Hm. apply andb_false_iff in Hm. destruct Hm as [Hm|Hm].
    + exists nm, h. split; [now left|].
      destruct (dict_mem ann nm); [|discriminate]. split; [reflexivity|].
      simpl in Hm. destruct (_hint_to_field h) as [f|e] eqn:Hh; [discriminate|].
      intros [f Hf]. apply table_sound in Hf. congruence.
    + destruct (IH Hm) as [nm0 [h0 [Hin H]]]. exists nm0, h0.
      split; [now right | exact H].
  - intros [nm [h [Hin [Hown Hnone]]]].
    destruct (hints_mappable ann types) eqn:Hm; [|reflexivity].
    destruct (hints_mappable_spec _ _ Hm nm h Hin Hown) as [f Hf].
    exfalso. apply Hnone. exists f. now apply table_complete.
Qed.




(** The definition of a class whose annotations evaluate, neither it
    nor a base holding a true [__no_type_check__], raises [TypeError]
    exactly when one of the annotations of its own body has no field; a
    hint inherited from a base never makes it fail, and a faulty [Meta]
    does not come first. *)
Theorem definition_type_error (cname : string) (bh : dict hint)
    (ba attrs : namespace) (ann : dict hint) :
  dict_mem attrs "_no_parse_hints" = false ->
  no_type_check (ModelType___new__ cname bh ba attrs) = false ->
  annotations_of attrs = Some (Ok ann) ->
  (fst (run (define_class cname bh ba attrs))
     = Raise (TypeError cannot_convert) <->
   exists nm h, In (nm, h) (dict_update bh ann) /\ dict_mem ann nm = true /\
                ~ exists f, table h f).
Proof.
  intros Hno Hntc Hann.
  rewrite <- hints_mappable_false.
  unfold run. rewrite define_class_parsed by exact Hno.
  rewrite (@new_class_parse_evaluated cname bh ba attrs ann [] Hno Hntc Hann).
  cbv zeta.
  set (t1 := if negb _ then _ else _).
  destruct (hints_mappable ann (dict_update bh ann)) eqn:Hm.
  - destruct (parse_loop_success ann (dict_update bh ann)
                (hints_mappable_spec _ _ Hm)
                (cls_dict (ModelType___new__ cname bh ba attrs))
                (explicit_fields attrs) t1) as [d' Hloop].
    replace (for_each (parse_hint_step ann) (dict_update bh ann)
               (cls_dict (ModelType___new__ cname bh ba attrs),
                explicit_fields attrs) t1)
      with (Ok (d', explicit_fields attrs
                    ++ own_names ann (dict_update bh ann)), t1)
      by (symmetry; exact Hloop).
    cbv iota. rewrite process_meta_from.
    destruct (find _ _); simpl; split; discriminate.
  - replace (for_each (parse_hint_step ann) (dict_update bh ann)
               (cls_dict (ModelType___new__ cname bh ba attrs),
                explicit_fields attrs) t1)
      with (@Raise (namespace * list string) (TypeError cannot_convert), t1)
      by (symmetry; now apply parse_loop_unmappable).
    simpl. split; reflexivity.
Qed.

Lemma definition_type_error_witness :
  let attrs : namespace :=
    [("__annotations__", AAnnotations [("price", HClass "Decimal" false)]);
     ("Meta", AMeta (mkMeta None (Some ["missing"]) None None))] in
  fst (run (define_class "Item" []
              [("__no_type_check__", AValue (VBool false))] attrs))
  = Raise (TypeError cannot_convert).
Proof.
  intros attrs.
  apply (@definition_type_error "Item" []
           [("__no_type_check__", AValue (VBool false))] attrs
           [("price", HClass "Decimal" false)] eq_refl eq_refl eq_refl).
  exists "price", (HClass "Decimal" false).
  split; [now left|]. split; [reflexivity|].
  intros [f Hf]. apply table_sound in Hf. discriminate.
Defined.



(** ** Hints inherited from the bases *)

(** The loop of [_parse_type_hints] does what it would do on the
    annotations of the class's own body alone: the hints of the bases
    build no field, raise nothing and leave the class as it is. *)
Theorem inherited_hints_ignored (ann : dict hint) (types : dict hint)
    (st : namespace * list string) (t : list event) :
  for_each (parse_hint_step ann) types st t =
  for_each (parse_hint_step ann)
           (filter (fun item => dict_mem ann (fst item)) types) st t.
Proof.
  revert st t. induction types as [|[nm h] types IH]; intros [d o] t;
    [reflexivity|].
  rewrite for_each_cons. simpl filter.
  destruct (dict_mem ann nm) eqn:Hown.
  - rewrite for_each_cons.
    destruct (parse_hint_step ann (d, o) (nm, h) t) as [[st'|e] t'];
      [apply IH | reflexivity].
  - rewrite parse_step_skip by exact Hown. apply IH.
Qed.

(** ** The order of the derived fields *)

Lemma dict_mem_set (V : Type) (d : dict V) (k k' : string) (v : V) :
  dict_mem (dict_set d k v) k' = String.eqb k k' || dict_mem d k'.
Proof.
  unfold dict_mem. rewrite dict_get_set.
  destruct (String.eqb k k'); reflexivity.
Qed.

Lemma dict_mem_In (V : Type) (d : dict V) (k : string) :
  dict_mem d k = true <-> In k (dict_keys d).
Proof.
  unfold dict_mem, dict_keys.
  induction d as [|[k0 v0] d IH]; simpl.
  - split; [discriminate | contradiction].
  - destruct (String.eqb k0 k) eqn:E.
    + apply String.eqb_eq in E. split; [now left | reflexivity].
    + apply String.eqb_neq in E. rewrite IH. split; [now right|].
      intros [H|H]; [contradiction | exact H].
Qed.

Lemma dict_keys_set (V : Type) (d : dict V) (k : string) (v : V) :
  dict_keys (dict_set d k v) =
  if dict_mem d k then dict_keys d else dict_keys d ++ [k].
Proof.
  unfold dict_mem, dict_keys.
  induction d as [|[k0 v0] d IH]; simpl; [reflexivity|].
  destruct (String.eqb k0 k); simpl; [reflexivity|].
  rewrite IH. destruct (dict_get d k); reflexivity.
Qed.

Lemma filter_ext_in_keys (p q : string -> bool) (l : list string) :
  (forall k, In k l -> p k = q k) -> filter p l = filter q l.
Proof.
  induction l as [|k l IH]; simpl; intros H; [reflexivity|].
  rewrite (H k (or_introl eq_refl)), IH; [reflexivity|].
  intros k' Hk'. apply H. now right.
Qed.

(** [d.update(e)] keeps the keys of [d] in place and appends the new
    keys of [e] in the order of [e]. *)
Lemma dict_keys_update (V : Type) (e : dict V) :
  unique_keys (dict_keys e) = true ->
  forall d : dict V,
    dict_keys (dict_update d e) =
    dict_keys d ++ filter (fun k => negb (dict_mem d k)) (dict_keys e).
Proof.
  unfold dict_update.
  induction e as [|[k v] e IH]; simpl; intros Hu d.
  - now rewrite app_nil_r.
  - apply andb_prop in Hu. destruct Hu as [Hk Hu].
    rewrite (IH Hu), dict_keys_set.
    assert (Hfilter : filter (fun k' => negb (dict_mem (dict_set d k v) k'))
                             (dict_keys e)
                      = filter (fun k' => negb (dict_mem d k')) (dict_keys e)).
    { apply filter_ext_in_keys. intros k' Hk'. rewrite dict_mem_set.
      destruct (String.eqb k k') eqn:E; [|reflexivity].
      apply String.eqb_eq in E. subst k'.
      assert (Hc : str_in k (dict_keys e) = true) by now apply str_in_In.
      unfold str_in, dict_keys in Hc, Hk. rewrite Hc in Hk. discriminate. }
    rewrite Hfilter.
    destruct (dict_mem d k); simpl; [reflexivity|].
    now rewrite <- app_assoc.
Qed.

Lemma filter_keys (V : Type) (p : string -> bool) (d : dict V) :
  map fst (filter (fun item => p (fst item)) d) = filter p (dict_keys d).
Proof.
  unfold dict_keys. induction d as [|[k v] d IH]; simpl; [reflexivity|].
  destruct (p k); simpl; now rewrite IH.
Qed.

Lemma filter_all (l : list string) (p : string -> bool) :
  (forall k, In k l -> p k = true) -> filter p l = l.
Proof.
  induction l as [|k l IH]; simpl; intros H; [reflexivity|].
  rewrite (H k (or_introl eq_refl)), IH; [reflexivity|].
  intros k' Hk'. apply H. now right.
Qed.

Lemma own_names_update (bh ann : dict hint) :
  unique_keys (dict_keys ann) = true ->
  own_names ann (dict_update bh ann) =
  filter (dict_mem ann) (dict_keys bh) ++
  filter (fun k => negb (dict_mem bh k)) (dict_keys ann).
Proof.
  intros Hu. unfold own_names.
  rewrite (filter_keys (dict_mem ann)), (dict_keys_update ann Hu), filter_app.
  f_equal. apply filter_all. intros k Hk.
  apply filter_In in Hk. apply dict_mem_In. tauto.
Qed.

Lemma parsed_field_order (cname : string) (bh : dict hint)
    (ba attrs : namespace) (ann : dict hint) (cls1 : class) (t : list event) :
  dict_mem attrs "_no_parse_hints" = false ->
  no_type_check (ModelType___new__ cname bh ba attrs) = false ->
  annotations_of attrs = Some (Ok ann) ->
  dict_mem ann "_field_order" = false ->
  run (_parse_type_hints (ModelType___new__ cname bh ba attrs)) = (Ok cls1, t) ->
  field_order_of (cls_dict cls1)
  = explicit_fields attrs ++ own_names ann (dict_update bh ann).
Proof.
  intros Hno Hntc Hann Hfo. unfold run.
  rewrite (@new_class_parse_evaluated cname bh ba attrs ann [] Hno Hntc Hann).
  cbv zeta.
  destruct (for_each _ _ _ _) as [[[d' o']|e] t'] eqn:Hloop; [|discriminate].
  intros [= <- <-]. simpl.
  pose proof (parse_loop_order _ _ _ _ _ Hloop) as [Ho _]. subst o'.
  unfold field_order_of.
  erewrite parse_loop_field_order; [reflexivity| | |exact Hloop].
  - intros Hc. apply own_names_annotated in Hc. congruence.
  - rewrite new_class_get by exact Hno. reflexivity.
Qed.

(** After the hints of a class are parsed, its annotations evaluating
    and neither it nor a base holding a true [__no_type_check__], its
    field order is: the explicit fields in declaration order; then the
    inherited names the body annotates again, in the order of the
    bases' hints; then the names the body annotates for the first time,
    in the order of the body. *)
Theorem derived_field_order (cname : string) (bh : dict hint)
    (ba attrs : namespace) (ann : dict hint) (cls1 : class) (t : list event) :
  dict_mem attrs "_no_parse_hints" = false ->
  no_type_check (ModelType___new__ cname bh ba attrs) = false ->
  annotations_of attrs = Some (Ok ann) ->
  dict_mem ann "_field_order" = false ->
  unique_keys (dict_keys ann) = true ->
  run (_parse_type_hints (ModelType___new__ cname bh ba attrs)) = (Ok cls1, t) ->
  field_order_of (cls_dict cls1)
  = explicit_fields attrs ++
    filter (dict_mem ann) (dict_keys bh) ++
    filter (fun k => negb (dict_mem bh k)) (dict_keys ann).
Proof.
  intros Hno Hntc Hann Hfo Hu Hrun.
  rewrite (@parsed_field_order cname bh ba attrs ann cls1 t
             Hno Hntc Hann Hfo Hrun).
  now rewrite own_names_update.
Qed.

Lemma derived_field_order_witness :
  let attrs : namespace :=
    [("__annotations__",
      AAnnotations [("title", HPrim Pstr); ("created", HPrim Pdatetime)]);
     ("slug", AField (new_field StringField))] in
  let bh : dict hint := [("pk", HPrim PObjectId); ("created", HPrim Pstr)] in
  let ba : namespace := [("__no_type_check__", AValue (VBool false))] in
  exists cls1 t,
    run (_parse_type_hints (ModelType___new__ "Post" bh ba attrs)) = (Ok cls1, t) /\
    field_order_of (cls_dict cls1) = ["slug"; "created"; "title"].
Proof.
  intros attrs bh ba. eexists. eexists. split; [lazy; reflexivity|].
  exact (@derived_field_order "Post" bh ba attrs
           [("title", HPrim Pstr); ("created", HPrim Pdatetime)] _ _
           eq_refl eq_refl eq_refl eq_refl eq_refl eq_refl).
Defined.

(** ** Classes declared in one style *)

(** A class declared with annotations only, every one of them
    evaluating and having a field, neither the class nor a base holding
    a true [__no_type_check__]: its hints are parsed without warning,
    every annotation of the body has got its field, and the field order
    is that of the derived fields; with no hint inherited it is the
    order of the annotations in the body. *)
Theorem annotation_only_class (cname : string) (bh : dict hint)
    (ba attrs : namespace) (ann : dict hint) :
  dict_mem attrs "_no_parse_hints" = false ->
  no_type_check (ModelType___new__ cname bh ba attrs) = false ->
  annotations_of attrs = Some (Ok ann) ->
  explicit_fields attrs = [] ->
  hints_mappable ann (dict_update bh ann) = true ->
  dict_mem ann "_field_order" = false ->
  unique_keys (dict_keys ann) = true ->
  exists cls1,
    run (_parse_type_hints (ModelType___new__ cname bh ba attrs))
      = (Ok cls1, []) /\
    field_order_of (cls_dict cls1) = own_names ann (dict_update bh ann) /\
    (forall nm, In nm (own_names ann (dict_update bh ann)) ->
                is_field (cls_dict cls1) nm = true) /\
    (bh = [] -> field_order_of (cls_dict cls1) = dict_keys ann).
Proof.
  intros Hno Hntc Hann Hexp Hmap Hfo Hu.
  destruct (parse_loop_success ann (dict_update bh ann)
              (hints_mappable_spec _ _ Hmap)
              (cls_dict (ModelType___new__ cname bh ba attrs)) [] [])
    as [d' Hloop].
  assert (Hrun : run (_parse_type_hints (ModelType___new__ cname bh ba attrs))
                 = (Ok (with_dict (ModelType___new__ cname bh ba attrs) d'), [])).
  { unfold run.
    rewrite (@new_class_parse_evaluated cname bh ba attrs ann [] Hno Hntc Hann).
    rewrite Hexp. cbv zeta. simpl negb. cbv iota.
    replace (for_each (parse_hint_step ann) (dict_update bh ann)
               (cls_dict (ModelType___new__ cname bh ba attrs), []) [])
      with (Ok (d', [] ++ own_names ann (dict_update bh ann)),
            @nil event) by (symmetry; exact Hloop).
    reflexivity. }
  pose proof (@parsed_field_order cname bh ba attrs ann _ _
                Hno Hntc Hann Hfo Hrun) as Hord.
  rewrite Hexp, app_nil_l in Hord.
  exists (with_dict (ModelType___new__ cname bh ba attrs) d').
  split; [exact Hrun|]. split; [exact Hord|]. split.
  - intros nm Hin. simpl.
    eapply parse_loop_built; [| right; exact Hin | exact Hloop].
    intros ->. apply own_names_annotated in Hin. congruence.
  - intros ->. rewrite Hord, (@own_names_update [] ann Hu). simpl.
    apply filter_all. intros k _. reflexivity.
Qed.

Lemma annotation_only_class_witness :
  let ann : dict hint :=
    [("user", HClass "User" true); ("title", HPrim Pstr);
     ("tags", HGeneric OriginList (HPrim Pstr) [])] in
  let attrs : namespace := [("__annotations__", AAnnotations ann)] in
  let ba : namespace := [("__no_type_check__", AValue (VBool false))] in
  exists cls1,
    run (_parse_type_hints (ModelType___new__ "Post" [] ba attrs))
      = (Ok cls1, []) /\
    field_order_of (cls_dict cls1) = ["user"; "title"; "tags"].
Proof.
  intros ann attrs ba.
  destruct (@annotation_only_class "Post" [] ba attrs ann
              eq_refl eq_refl eq_refl eq_refl eq_refl eq_refl eq_refl)
    as [cls1 (Hrun & _ & _ & Hord)].
  exists cls1. split; [exact Hrun | exact (Hord eq_refl)].
Defined.

(** A class declared with explicit [Field] objects only: its definition
    is [_process_meta] on the class as [__new__] collected it; it never
    warns, fails with the [ValueError] of [Meta] only, and its field
    order is the declaration order of the explicit fields. *)
Theorem explicit_only_class (cname : string) (bh : dict hint)
    (ba attrs : namespace) :
  dict_mem attrs "_no_parse_hints" = false ->
  annotations_of attrs = None ->
  run (define_class cname bh ba attrs)
    = run (_process_meta (ModelType___new__ cname bh ba attrs)) /\
  (forall cls t,
     run (define_class cname bh ba attrs) = (Ok cls, t) ->
     t = [] /\
     field_order_of (cls_dict cls) = map fst (schema_fields attrs)) /\
  (forall e t,
     run (define_class cname bh ba attrs) = (Raise e, t) ->
     t = [] /\ exists n, e = ValueError n).
Proof.
  intros Hno Hann.
  assert (Hdef : run (define_class cname bh ba attrs)
                 = run (_process_meta (ModelType___new__ cname bh ba attrs))).
  { unfold run. rewrite define_class_parsed by exact Hno.
    rewrite new_class_parse_hints by exact Hno. now rewrite Hann. }
  split; [exact Hdef|]. rewrite Hdef. unfold run.
  rewrite process_meta_from. split.
  - intros cls t. destruct (find _ _); [discriminate|].
    intros [= <- <-]. split; [reflexivity|]. simpl.
    rewrite field_order_of_overridden,
      (new_class_field_order cname bh ba attrs Hno).
    apply explicit_fields_keys.
  - intros e t. destruct (find _ _) as [n|]; [|discriminate].
    intros [= <- <-]. eauto.
Qed.

Lemma explicit_only_class_witness :
  let attrs : namespace :=
    [("title", AField (new_field StringField));
     ("helper", AValue (VInt 3));
     ("age", AField (mkField IntField (Some "years") false None None None));
     ("Meta", AMeta (mkMeta None (Some ["title"]) None None))] in
  exists cls,
    run (define_class "Post" [] [] attrs) = (Ok cls, []) /\
    field_order_of (cls_dict cls) = ["title"; "age"].
Proof.
  intros attrs.
  destruct (@explicit_only_class "Post" [] [] attrs eq_refl eq_refl)
    as (_ & Hok & _).
  eexists. split; [lazy; reflexivity|].
  apply (Hok _ []). lazy. reflexivity.
Defined.

(** ** What [_process_meta] does to a field *)

Lemma field_of_update (d : namespace) (k nm : string) (g : Field -> Field) :
  field_of (update_field d k g) nm =
  if String.eqb k nm then option_map g (field_of d nm) else field_of d nm.
Proof.
  unfold update_field.
  destruct (field_of d k) as [f|] eqn:E.
  - unfold field_of at 1. rewrite dict_get_set.
    destruct (String.eqb k nm) eqn:En; [|reflexivity].
    apply String.eqb_eq in En. subst nm. now rewrite E.
  - destruct (String.eqb k nm) eqn:En; [|reflexivity].
    apply String.eqb_eq in En. subst nm. now rewrite E.
Qed.

Lemma dict_get_update_other (d : namespace) (k k' : string)
    (g : Field -> Field) :
  field_of d k' = None ->
  dict_get (update_field d k g) k' = dict_get d k'.
Proof.
  intros Hk'. unfold update_field.
  destruct (field_of d k) as [f|] eqn:E; [|reflexivity].
  rewrite dict_get_set.
  destruct (String.eqb k k') eqn:En; [|reflexivity].
  apply String.eqb_eq in En. subst k'. congruence.
Qed.

Lemma dict_keys_update_field (d : namespace) (k : string)
    (g : Field -> Field) :
  dict_keys (update_field d k g) = dict_keys d.
Proof.
  unfold update_field, field_of.
  destruct (dict_get d k) as [[f| | | | |]|] eqn:E; try reflexivity.
  rewrite dict_keys_set. unfold dict_mem. now rewrite E.
Qed.

Section OverrideResult.
Variable A : Type.
Variable key : A -> string.
Variable change : A -> Field -> Field.

(** The changes of the overrides that name [nm], in the order of the
    list. *)
Definition changes_for (nm : string) (l : list A) (f : Field) : Field :=
  fold_left (fun f x => if String.eqb (key x) nm then change x f else f) l f.

Lemma field_of_apply_overrides (l : list A) (nm : string) :
  forall d,
    field_of (apply_overrides key change l d) nm =
    option_map (changes_for nm l) (field_of d nm).
Proof.
  induction l as [|x l IH]; intros d.
  - simpl. destruct (field_of d nm); reflexivity.
  - change (apply_overrides key change (x :: l) d)
      with (apply_overrides key change l (update_field d (key x) (change x))).
    rewrite IH, field_of_update. unfold changes_for. simpl.
    destruct (String.eqb (key x) nm); destruct (field_of d nm); reflexivity.
Qed.

Lemma dict_get_apply_overrides_other (l : list A) (k : string) :
  forall d,
    field_of d k = None ->
    dict_get (apply_overrides key change l d) k = dict_get d k.
Proof.
  induction l as [|x l IH]; intros d Hk; [reflexivity|].
  change (apply_overrides key change (x :: l) d)
    with (apply_overrides key change l (update_field d (key x) (change x))).
  rewrite IH.
  - now apply dict_get_update_other.
  - rewrite field_of_update, Hk. destruct (String.eqb (key x) k); reflexivity.
Qed.

Lemma dict_keys_apply_overrides (l : list A) :
  forall d, dict_keys (apply_overrides key change l d) = dict_keys d.
Proof.
  induction l as [|x l IH]; intros d; [reflexivity|].
  change (apply_overrides key change (x :: l) d)
    with (apply_overrides key change l (update_field d (key x) (change x))).
  rewrite IH. apply dict_keys_update_field.
Qed.
End OverrideResult.










(** [_process_meta] adds and removes no attribute, keeps their order,
    and leaves every attribute that is not a field as it is. *)
Theorem process_meta_frame (cls cls' : class) (t : list event) :
  run (_process_meta cls) = (Ok cls', t) ->
  dict_keys (cls_dict cls') = dict_keys (cls_dict cls) /\
  (forall k, field_of (cls_dict cls) k = None ->
             dict_get (cls_dict cls') k = dict_get (cls_dict cls) k) /\
  (forall k, is_field (cls_dict cls') k = is_field (cls_dict cls) k).
Proof.
  unfold run. rewrite process_meta_from.
  destruct (find _ _); [discriminate|].
  intros [= <- <-]. simpl.
  set (m := meta_of (cls_dict cls)).
  change (apply_validators (meta_validators m)) with
    (apply_overrides fst (fun x f => set_validator f (snd x)) (meta_validators m)).
  change (apply_converters (meta_converters m)) with
    (apply_overrides fst (fun x f => set_converter f (snd x)) (meta_converters m)).
  change (apply_required (meta_required_names m)) with
    (apply_overrides (fun x => x) (fun _ f => set_required f true)
                     (meta_required_names m)).
  change (apply_aliases (meta_aliases m)) with
    (apply_overrides fst (fun x f => set_name f (snd x)) (meta_aliases m)).
  split; [|split].
  - now rewrite !dict_keys_apply_overrides.
  - intros k Hk.
    rewrite !dict_get_apply_overrides_other; try reflexivity;
      rewrite ?field_of_apply_overrides, Hk; reflexivity.
  - intros k. now rewrite !is_field_apply_overrides.
Qed.

Lemma process_meta_frame_witness :
  let d : namespace :=
    [("title", AField (new_field StringField));
     ("helper", AValue (VInt 3));
     ("Meta", AMeta (mkMeta (Some (AliasDict [("title", "t")])) None None None))] in
  exists cls',
    fst (run (_process_meta (mkClass "Post" d [] []))) = Ok cls' /\
    dict_keys (cls_dict cls') = ["title"; "helper"; "Meta"].
Proof.
  intros d. eexists. split; [lazy; reflexivity|].
  exact (proj1 (@process_meta_frame (mkClass "Post" d [] []) _ [] eq_refl)).
Defined.

(** ** What the definition of a class looks at *)

(** A class body that carries [_no_parse_hints] is taken as it is: no
    field is named, no [_field_order] is recorded, and neither an
    annotation without field nor a faulty [Meta] raises. *)
Theorem unparsed_class (cname : string) (bh : dict hint)
    (ba attrs : namespace) :
  dict_mem attrs "_no_parse_hints" = true ->
  run (define_class cname bh ba attrs) = (Ok (mkClass cname attrs bh ba), []).
Proof.
  intros Hno. unfold run, define_class, ModelType___init__, ModelType___new__.
  rewrite Hno. simpl. now rewrite Hno.
Qed.

Lemma unparsed_class_witness :
  let attrs : namespace :=
    [("_no_parse_hints", AValue (VBool true));
     ("__annotations__", AAnnotations [("price", HClass "Decimal" false)]);
     ("title", AField (new_field StringField));
     ("Meta", AMeta (mkMeta None (Some ["missing"]) None None))] in
  run (define_class "Base" [] [] attrs) = (Ok (mkClass "Base" attrs [] []), []).
Proof.
  intros attrs. exact (@unparsed_class "Base" [] [] attrs eq_refl).
Defined.









(** Under a true [__no_type_check__], its own or inherited,
    [get_type_hints] returns no hint: parsing the hints of the class
    derives no field from its annotations, whether they evaluate or
    not, and leaves the class as [__new__] made it; the mixing warning
    is emitted all the same when the body has annotations and explicit
    fields. *)
Theorem no_type_check_derives_nothing (cname : string) (bh : dict hint)
    (ba attrs : namespace) :
  dict_mem attrs "_no_parse_hints" = false ->
  no_type_check (ModelType___new__ cname bh ba attrs) = true ->
  run (_parse_type_hints (ModelType___new__ cname bh ba attrs))
  = (Ok (ModelType___new__ cname bh ba attrs),
     if mixes_styles attrs then [Warned mixing_warning] else []).
Proof.
  intros Hno Hntc. unfold run, mixes_styles.
  rewrite new_class_parse_hints by exact Hno. rewrite Hno. simpl negb.
  assert (Hann : forall ann,
    parse_annotated ann (ModelType___new__ cname bh ba attrs) []
    = (Ok (ModelType___new__ cname bh ba attrs),
       if negb (Nat.eqb (List.length (explicit_fields attrs)) 0)
       then [Warned mixing_warning] else [])).
  { intros ann. rewrite parse_annotated_from. unfold get_type_hints.
    rewrite Hntc. cbv zeta. rewrite for_each_nil.
    rewrite (new_class_field_order cname bh ba attrs Hno).
    unfold ret. simpl fst.
    assert (Heta : forall cls, with_dict cls (cls_dict cls) = cls)
      by (intros []; reflexivity).
    rewrite Heta.
    destruct (negb (Nat.eqb (List.length (explicit_fields attrs)) 0));
      reflexivity. }
  destruct (annotations_of attrs) as [[ann|e]|]; simpl.
  - apply Hann.
  - apply Hann.
  - reflexivity.
Qed.

Lemma no_type_check_derives_nothing_witness :
  let attrs : namespace :=
    [("__no_type_check__", AValue (VBool true));
     ("__annotations__", AAnnotations [("title", HPrim Pstr)]);
     ("age", AField (new_field IntField))] in
  let cls0 := ModelType___new__ "Post" [] [] attrs in
  run (_parse_type_hints cls0) = (Ok cls0, [Warned mixing_warning]) /\
  is_field (cls_dict cls0) "title" = false /\
  field_order_of (cls_dict cls0) = ["age"].
Proof.
  intros attrs cls0. split; [|split; reflexivity].
  exact (@no_type_check_derives_nothing "Post" [] [] attrs eq_refl eq_refl).
Defined.

(** [Meta] requiring a field that only a base declares: the field is no
    attribute of the class's own body, and the definition raises. *)
Example inherited_field_is_unknown_to_meta :
  run (define_class "Child" []
         [("title", AField (mkField StringField (Some "title") false None None None))]
         [("Meta", AMeta (mkMeta None (Some ["title"]) None None))])
  = (Raise (ValueError "title"), []).
Proof. reflexivity. Qed.

(** ** An attribute declared in both styles *)

(** An attribute of the body that holds an explicit [Field] and is
    annotated as well, the annotations evaluating and neither the class
    nor a base holding a true [__no_type_check__]: once the hints are
    parsed, the class holds under
    it the field of the hint, named after the attribute, with the kind,
    the required flag, the converter and the validator of that fresh
    field, whatever the explicit [Field] had; and the attribute is
    listed twice in the field order, among the explicit fields and
    among the derived ones. *)
Theorem explicit_field_overwritten (cname : string) (bh : dict hint)
    (ba attrs : namespace) (ann : dict hint) (nm : string) (h : hint)
    (explicit : Field) (cls1 : class) (t : list event) :
  dict_mem attrs "_no_parse_hints" = false ->
  no_type_check (ModelType___new__ cname bh ba attrs) = false ->
  annotations_of attrs = Some (Ok ann) ->
  dict_mem ann "_field_order" = false ->
  unique_keys (dict_keys (dict_update bh ann)) = true ->
  dict_get (dict_update bh ann) nm = Some h ->
  dict_mem ann nm = true ->
  dict_get attrs nm = Some (AField explicit) ->
  run (_parse_type_hints (ModelType___new__ cname bh ba attrs)) = (Ok cls1, t) ->
  (exists f0 f1,
     _hint_to_field h = Ok f0 /\
     field_of (cls_dict cls1) nm = Some f1 /\
     name f1 = Some nm /\ kind f1 = kind f0 /\ required f1 = required f0 /\
     converter f1 = converter f0 /\ validator f1 = validator f0) /\
  field_order_of (cls_dict cls1)
    = explicit_fields attrs ++ own_names ann (dict_update bh ann) /\
  In nm (explicit_fields attrs) /\
  In nm (own_names ann (dict_update bh ann)).
Proof.
  intros Hno Hntc Hann Hfo Hu Hh Hown Hexp Hrun.
  assert (Hnm : nm <> "_field_order") by (intros ->; congruence).
  split; [|split; [|split]].
  - unfold run in Hrun.
    rewrite (@new_class_parse_evaluated cname bh ba attrs ann [] Hno Hntc Hann)
      in Hrun.
    cbv zeta in Hrun.
    destruct (for_each _ _ _ _) as [[[d' o']|e] t'] eqn:Hloop; [|discriminate].
    injection Hrun as <- <-. simpl.
    destruct (@parse_loop_field ann _ nm h (unique_keys_NoDup _ Hu)
                (dict_get_In _ _ Hh) Hown Hnm _ _ _ _ _ _ Hloop)
      as [f0 [Hf0 Hd']].
    exists f0. eexists. split; [exact Hf0|].
    unfold field_of. rewrite Hd'. split; [reflexivity|].
    unfold derive. destruct f0. destruct (is_not_None _); repeat split.
  - exact (@parsed_field_order cname bh ba attrs ann cls1 t
             Hno Hntc Hann Hfo Hrun).
  - rewrite explicit_fields_keys. apply in_map_iff. exists (nm, explicit).
    split; [reflexivity|]. apply schema_fields_In. now apply dict_get_In.
  - unfold own_names. apply in_map_iff. exists (nm, h).
    split; [reflexivity|]. apply filter_In. split; [|exact Hown].
    now apply dict_get_In.
Qed.

Lemma explicit_field_overwritten_witness :
  let attrs : namespace :=
    [("__annotations__", AAnnotations [("age", HPrim Pint)]);
     ("age", AField (mkField StringField None true None (Some "to_text") None))] in
  exists cls1 f1,
    fst (run (_parse_type_hints (ModelType___new__ "Post" [] [] attrs))) = Ok cls1 /\
    field_of (cls_dict cls1) "age" = Some f1 /\
    kind f1 = IntField /\ required f1 = false /\ converter f1 = None /\
    field_order_of (cls_dict cls1) = ["age"; "age"].
Proof.
  intros attrs.
  destruct (@explicit_field_overwritten "Post" [] [] attrs
              [("age", HPrim Pint)] "age" (HPrim Pint) _ _ _
              eq_refl eq_refl eq_refl eq_refl eq_refl eq_refl eq_refl eq_refl
              eq_refl)
    as ((f0 & f1 & Hf0 & Hf1 & _ & Hk & Hr & Hc & _) & Hord & _).
  injection Hf0 as <-.
  eexists. exists f1. split; [lazy; reflexivity|].
  repeat split; auto.
Defined.

(** ** The field order lists the fields *)

Lemma In_dict_get (V : Type) (d : dict V) (k : string) (v : V) :
  unique_keys (dict_keys d) = true -> In (k, v) d -> dict_get d k = Some v.
Proof.
  unfold dict_keys.
  induction d as [|[k0 v0] d IH]; simpl; intros Hu Hin; [contradiction|].
  apply andb_prop in Hu. destruct Hu as [Hk0 Hu].
  destruct Hin as [[= -> ->]|Hin].
  - now rewrite String.eqb_refl.
  - destruct (String.eqb k0 k) eqn:E; [|now apply IH].
    apply String.eqb_eq in E. subst k0.
    assert (Hc : str_in k (map fst d) = true).
    { apply str_in_In. apply in_map_iff. exists (k, v). split; auto. }
    rewrite Hc in Hk0. discriminate.
Qed.

Lemma is_field_explicit (attrs : namespace) (k : string) :
  unique_keys (dict_keys attrs) = true ->
  (In k (explicit_fields attrs) <-> is_field attrs k = true).
Proof.
  intros Hu. rewrite explicit_fields_keys, in_map_iff.
  unfold is_field, field_of. split.
  - intros [[k0 f] [Hk Hin]]. simpl in Hk. subst k0.
    apply schema_fields_In in Hin.
    now rewrite (In_dict_get attrs k (AField f) Hu Hin).
  - destruct (dict_get attrs k) as [[f| | | | |]|] eqn:E; try discriminate.
    intros _. exists (k, f). split; [reflexivity|].
    apply schema_fields_In. now apply dict_get_In.
Qed.

Lemma is_field_new_class (cname : string) (bh : dict hint)
    (ba attrs : namespace) (k : string) :
  dict_mem attrs "_no_parse_hints" = false ->
  is_field (cls_dict (ModelType___new__ cname bh ba attrs)) k =
  negb (String.eqb "_field_order" k) && is_field attrs k.
Proof.
  intros Hno. unfold is_field, field_of.
  rewrite new_class_get by exact Hno.
  destruct (String.eqb "_field_order" k); [reflexivity|]. simpl.
  destruct (dict_get attrs k) as [[f| | | | |]|]; reflexivity.
Qed.

Lemma is_field_sync (d : namespace) (o : list string) (k : string) :
  is_field (sync_field_order d o) k = is_field d k.
Proof.
  unfold is_field, field_of, sync_field_order.
  destruct (dict_get d "_field_order") as [[| | | |l|]|] eqn:E; try reflexivity.
  rewrite dict_get_set.
  destruct (String.eqb "_field_order" k) eqn:Ek; [|reflexivity].
  apply String.eqb_eq in Ek. subst k. now rewrite E.
Qed.

(** The names of the list are the fields of the namespace. *)
Definition lists_fields (st : namespace * list string) : Prop :=
  forall k, In k (snd st) <-> is_field (fst st) k = true.

Lemma lists_fields_step (ann : dict hint) :
  forall st item t st' t',
    parse_hint_step ann st item t = (Ok st', t') ->
    lists_fields st -> lists_fields st'.
Proof.
  intros [d o] [nm h] t st' t' H Hinv.
  destruct (dict_mem ann nm) eqn:Hown.
  - rewrite parse_step_own in H by exact Hown.
    destruct (_hint_to_field h) as [f|e]; [|discriminate].
    cbv zeta in H. injection H as <- <-.
    intros k. simpl. unfold is_field at 1, field_of.
    rewrite dict_get_set, in_app_iff.
    destruct (String.eqb nm k) eqn:E.
    + apply String.eqb_eq in E. subst k. split; [reflexivity|].
      intros _. right. now left.
    + apply String.eqb_neq in E.
      fold (field_of (sync_field_order d (o ++ [nm])) k).
      fold (is_field (sync_field_order d (o ++ [nm])) k).
      rewrite is_field_sync, <- (Hinv k). simpl. split; [|tauto].
      intros [Hin|[Heq|[]]]; [exact Hin | contradiction].
  - rewrite parse_step_skip in H by exact Hown. now injection H as <- <-.
Qed.

Lemma is_field_overridden (m : Meta) (d : namespace) (k : string) :
  is_field
    (apply_validators (meta_validators m)
       (apply_converters (meta_converters m)
          (apply_required (meta_required_names m)
             (apply_aliases (meta_aliases m) d)))) k = is_field d k.
Proof.
  transitivity (is_field
    (apply_converters (meta_converters m)
       (apply_required (meta_required_names m)
          (apply_aliases (meta_aliases m) d))) k).
  { exact (is_field_apply_overrides fst
             (fun x f => set_validator f (snd x)) _ _ _). }
  transitivity (is_field
    (apply_required (meta_required_names m)
       (apply_aliases (meta_aliases m) d)) k).
  { exact (is_field_apply_overrides fst
             (fun x f => set_converter f (snd x)) _ _ _). }
  transitivity (is_field (apply_aliases (meta_aliases m) d) k).
  { exact (is_field_apply_overrides (fun x => x)
             (fun _ f => set_required f true) _ _ _). }
  exact (is_field_apply_overrides fst (fun x f => set_name f (snd x)) _ _ _).
Qed.

Lemma parse_annotated_lists_fields (ann : dict hint) (cls cls1 : class)
    (t t1 : list event) (o : list string) :
  dict_mem ann "_field_order" = false ->
  dict_get (cls_dict cls) "_field_order" = Some (AFieldOrder o) ->
  lists_fields (cls_dict cls, o) ->
  parse_annotated ann cls t = (Ok cls1, t1) ->
  forall k, In k (field_order_of (cls_dict cls1)) <->
            is_field (cls_dict cls1) k = true.
Proof.
  intros Hfo Hd H0. rewrite parse_annotated_from.
  destruct (get_type_hints cls) as [types|e0]; [|discriminate].
  cbv zeta. unfold field_order_of at 1 2. rewrite Hd.
  destruct (for_each _ _ _ _) as [[[d' o']|e] t'] eqn:Hloop; [|discriminate].
  intros [= <- <-]. simpl.
  assert (Hnot : ~ In "_field_order" (own_names ann types)).
  { intros Hc. apply own_names_annotated in Hc. congruence. }
  unfold field_order_of.
  rewrite (@parse_loop_field_order ann types Hnot _ _ _ _ _ _ Hd Hloop).
  exact (@for_each_preserves _ _ (parse_hint_step ann) lists_fields
           (lists_fields_step ann) _ _ _ _ _ Hloop H0).
Qed.

(** The body keeps the name [_field_order] for the metaclass: no
    explicit field is declared under it and it is not annotated. *)
Definition reserved_free (attrs : namespace) : bool :=
  negb (is_field attrs "_field_order") &&
  match annotations_of attrs with
  | Some (Ok ann) => negb (dict_mem ann "_field_order")
  | _ => true
  end.

(** Once a class is defined, its [_field_order] names exactly the
    attributes of the class that hold a field. *)
Theorem field_order_lists_fields (cname : string) (bh : dict hint)
    (ba attrs : namespace) (cls : class) (t : list event) :
  dict_mem attrs "_no_parse_hints" = false ->
  unique_keys (dict_keys attrs) = true ->
  reserved_free attrs = true ->
  run (define_class cname bh ba attrs) = (Ok cls, t) ->
  forall k, In k (field_order_of (cls_dict cls)) <->
            is_field (cls_dict cls) k = true.
Proof.
  intros Hno Hu Hres Hrun.
  apply andb_prop in Hres. destruct Hres as [Hres1 Hres2].
  apply negb_true_iff in Hres1.
  assert (H0 : lists_fields (cls_dict (ModelType___new__ cname bh ba attrs),
                             explicit_fields attrs)).
  { intros k. simpl. rewrite is_field_new_class by exact Hno.
    rewrite (is_field_explicit attrs k Hu).
    destruct (String.eqb "_field_order" k) eqn:E; simpl; [|tauto].
    apply String.eqb_eq in E. subst k. rewrite Hres1. tauto. }
  unfold run in Hrun. rewrite define_class_parsed in Hrun by exact Hno.
  destruct (_parse_type_hints _ []) as [[cls1|e] t1] eqn:Hparse;
    [|discriminate].
  assert (H1 : forall k, In k (field_order_of (cls_dict cls1)) <->
                         is_field (cls_dict cls1) k = true).
  { assert (Hfo0 : dict_get (cls_dict (ModelType___new__ cname bh ba attrs))
                            "_field_order"
                   = Some (AFieldOrder (explicit_fields attrs))).
    { rewrite new_class_get by exact Hno. reflexivity. }
    rewrite new_class_parse_hints in Hparse by exact Hno.
    destruct (annotations_of attrs) as [[ann|e]|] eqn:Hann.
    - apply negb_true_iff in Hres2.
      exact (@parse_annotated_lists_fields ann _ cls1 [] t1 _
               Hres2 Hfo0 H0 Hparse).
    - exact (@parse_annotated_lists_fields [] _ cls1 [] t1 _
               eq_refl Hfo0 H0 Hparse).
    - injection Hparse as <- <-.
      rewrite (new_class_field_order cname bh ba attrs Hno).
      exact H0. }
  rewrite process_meta_from in Hrun.
  destruct (find _ _); [discriminate|].
  injection Hrun as <- <-. simpl. intros k.
  rewrite field_order_of_overridden, (H1 k), is_field_overridden. tauto.
Qed.

Lemma field_order_lists_fields_witness :
  let attrs : namespace :=
    [("__annotations__", AAnnotations [("title", HPrim Pstr)]);
     ("age", AField (new_field IntField));
     ("helper", AValue (VInt 3))] in
  exists cls t,
    run (define_class "Post" [] [] attrs) = (Ok cls, t) /\
    (In "helper" (field_order_of (cls_dict cls)) <->
     is_field (cls_dict cls) "helper" = true) /\
    (In "title" (field_order_of (cls_dict cls)) <->
     is_field (cls_dict cls) "title" = true).
Proof.
  intros attrs. eexists. eexists. split; [lazy; reflexivity|].
  split; apply (@field_order_lists_fields "Post" [] [] attrs _ _
                  eq_refl eq_refl eq_refl eq_refl).
Defined.

(** ** What [__new__] keeps of the class body *)

Lemma collect_fields_keys (attrs : namespace) :
  dict_keys (fst (collect_fields attrs)) = dict_keys attrs.
Proof.
  rewrite collect_fields_map. unfold dict_keys. rewrite map_map. reflexivity.
Qed.

(** [__new__] keeps the attributes of the body and their order, adding
    [_field_order] at the end unless the body has the name; it keeps
    every attribute that is not a field as it is, and every explicit
    field with all it was given, filling in only a missing name, with
    the attribute's. *)
Theorem collection_keeps_body (cname : string) (bh : dict hint)
    (ba attrs : namespace) :
  dict_mem attrs "_no_parse_hints" = false ->
  let cls0 := ModelType___new__ cname bh ba attrs in
  dict_keys (cls_dict cls0)
    = (if dict_mem attrs "_field_order" then dict_keys attrs
       else dict_keys attrs ++ ["_field_order"]) /\
  (forall k a,
     String.eqb "_field_order" k = false ->
     dict_get attrs k = Some a -> (forall f, a <> AField f) ->
     dict_get (cls_dict cls0) k = Some a) /\
  (forall k f,
     String.eqb "_field_order" k = false ->
     dict_get attrs k = Some (AField f) ->
     field_of (cls_dict cls0) k
     = Some (mkField (kind f)
                     (Some (match name f with Some n => n | None => k end))
                     (required f) (default f) (converter f) (validator f))).
Proof.
  intros Hno cls0. unfold cls0. split; [|split].
  - rewrite new_class_dict by exact Hno.
    rewrite dict_keys_set, collect_fields_keys.
    unfold dict_mem. rewrite collect_fields_get.
    destruct (dict_get attrs "_field_order"); reflexivity.
  - intros k a Hk Hget Hnf. rewrite new_class_get by exact Hno.
    rewrite Hk, Hget. simpl. destruct a as [f| | | | |]; try reflexivity.
    now destruct (Hnf f).
  - intros k f Hk Hget. unfold field_of.
    rewrite new_class_get by exact Hno. rewrite Hk, Hget. simpl.
    destruct f as [kd [n|] r df c v]; reflexivity.
Qed.

Lemma collection_keeps_body_witness :
  let attrs : namespace :=
    [("title", AField (mkField StringField None true None None (Some "not_blank")));
     ("helper", AValue (VInt 3));
     ("age", AField (mkField IntField (Some "years") false None None None))] in
  let cls0 := ModelType___new__ "Post" [] [] attrs in
  dict_keys (cls_dict cls0) = ["title"; "helper"; "age"; "_field_order"] /\
  dict_get (cls_dict cls0) "helper" = Some (AValue (VInt 3)) /\
  field_of (cls_dict cls0) "title"
    = Some (mkField StringField (Some "title") true None None (Some "not_blank")) /\
  field_of (cls_dict cls0) "age"
    = Some (mkField IntField (Some "years") false None None None).
Proof.
  intros attrs cls0.
  destruct (@collection_keeps_body "Post" [] [] attrs eq_refl)
    as (Hkeys & Hother & Hfield).
  split; [exact Hkeys|]. split; [|split].
  - apply Hother; [reflexivity | reflexivity | discriminate].
  - exact (Hfield "title" _ eq_refl eq_refl).
  - exact (Hfield "age" _ eq_refl eq_refl).
Defined.
